(** * unusedlambda.py: query building, asynchronous execution, result
      parsing and reconciliation

    A shallow embedding of [unusedlambda.py].  Python strings are modelled
    as [string], each [ascii] standing for the code point of the same number
    (the Latin-1 range); Python sets of strings as [gset string]; the boto3
    clients as records of state-passing functions; exceptions and the
    unbounded polling loop through an outcome type with fuel. *)

From Stdlib Require Import Ascii.
From stdpp Require Import base strings list gmap pretty.

Set Warnings "-clear-no-such-hyp".

(** ** Python values and exceptions *)

Inductive Exn : Type :=
  | KeyError (key : string)
  | IndexError
  | TypeError
  | ValueError.

Inductive result (A : Type) : Type :=
  | Ok (a : A)
  | Err (e : Exn).
Arguments Ok {A} a.
Arguments Err {A} e.

Definition result_bind {A B} (r : result A) (k : A → result B) : result B :=
  match r with
  | Ok a => k a
  | Err e => Err e
  end.

(** ** The string primitives of Python the script relies on *)

Module Py.

Definition SQUOTE : ascii := "039"%char.
Definition DQUOTE : ascii := "034"%char.
Definition BACKSLASH : ascii := "092"%char.
Definition LBRACE : ascii := "123"%char.
Definition RBRACE : ascii := "125"%char.

Definition chr (c : ascii) : string := String c EmptyString.

Fixpoint contains (c : ascii) (s : string) : bool :=
  match s with
  | EmptyString => false
  | String d r => if Ascii.eqb c d then true else contains c r
  end.

(** [s.lstrip(chars)]: leading characters that occur in [chars] are
    removed; [chars] is a set of characters, not a prefix. *)
Fixpoint lstrip (chars : string) (s : string) : string :=
  match s with
  | EmptyString => EmptyString
  | String c r => if contains c chars then lstrip chars r else s
  end.

Fixpoint removelast (s : string) : string :=
  match s with
  | EmptyString => EmptyString
  | String c EmptyString => EmptyString
  | String c r => String c (removelast r)
  end.

(** [s[1:-1]] *)
Definition slice_1_m1 (s : string) : string :=
  match s with
  | EmptyString => EmptyString
  | String _ r => removelast r
  end.

(** [sep.join(l)] *)
Fixpoint join (sep : string) (l : list string) : string :=
  match l with
  | [] => EmptyString
  | [x] => x
  | x :: r => x +:+ sep +:+ join sep r
  end.

Definition hex_digit (n : N) : ascii :=
  if (n <? 10)%N then ascii_of_N (48 + n) else ascii_of_N (87 + n).

(** [str.isprintable] on one code point below 256. *)
Definition isprintable (c : ascii) : bool :=
  let n := N_of_ascii c in
  ((32 <=? n)%N && (n <? 127)%N) || ((161 <=? n)%N && negb (n =? 173)%N).

(** [repr] of a [str]: the quote is the double quote when the text has a
    single quote and no double quote, the single quote otherwise; the
    quote and the backslash are escaped, as are unprintable characters. *)
Definition repr_quote (s : string) : ascii :=
  if contains SQUOTE s && negb (contains DQUOTE s) then DQUOTE else SQUOTE.

Definition repr_char (quote : ascii) (c : ascii) : string :=
  if Ascii.eqb c quote || Ascii.eqb c BACKSLASH then String BACKSLASH (chr c)
  else if Ascii.eqb c "009" then String BACKSLASH "t"
  else if Ascii.eqb c "010" then String BACKSLASH "n"
  else if Ascii.eqb c "013" then String BACKSLASH "r"
  else if isprintable c then chr c
  else let n := N_of_ascii c in
       String BACKSLASH
         (String "x" (String (hex_digit (n / 16)) (chr (hex_digit (n mod 16))))).

Fixpoint repr_body (quote : ascii) (s : string) : string :=
  match s with
  | EmptyString => EmptyString
  | String c r => repr_char quote c +:+ repr_body quote r
  end.

Definition repr (s : string) : string :=
  let quote := repr_quote s in
  String quote (repr_body quote s +:+ chr quote).

(** [str(l)] for a list of [str]. *)
Definition str_list (l : list string) : string :=
  "[" +:+ join ", " (map repr l) +:+ "]".

Fixpoint is_digits (s : string) : bool :=
  match s with
  | EmptyString => true
  | String c r =>
      let n := N_of_ascii c in (48 <=? n)%N && (n <=? 57)%N && is_digits r
  end.

Fixpoint index_of_digits (acc : nat) (s : string) : nat :=
  match s with
  | EmptyString => acc
  | String c r => index_of_digits (10 * acc + (nat_of_ascii c - 48)) r
  end.

(** A replacement field [{name}] of [str.format]: a run of digits is a
    position in the positional arguments, any other name a keyword. *)
Definition format_field (name : string) (args : list string)
    (kwargs : list (string * string)) : result string :=
  match name with
  | EmptyString => Err ValueError
  | _ =>
      if is_digits name then
        match args !! index_of_digits 0 name with
        | Some v => Ok v
        | None => Err IndexError
        end
      else
        match list_find (λ kv, kv.1 = name) kwargs with
        | Some (_, (_, v)) => Ok v
        | None => Err (KeyError name)
        end
  end.

(** [template.format(args..., kwargs...)] for templates whose replacement
    fields are plain [{index}] or [{name}] (no conversion, no format
    specification, no attribute access), with the brace escapes.
    [field] holds the name of the field being read, if any.  The
    substituted values are not scanned again.  Automatic numbering (an
    empty field name) is not modelled: the script's templates name every
    field. *)
Fixpoint format_go (field : option string) (template : string)
    (args : list string) (kwargs : list (string * string)) : result string :=
  match template with
  | EmptyString =>
      match field with
      | None => Ok EmptyString
      | Some _ => Err ValueError
      end
  | String c r =>
      match field with
      | Some name =>
          if Ascii.eqb c RBRACE then
            result_bind (format_field name args kwargs) (λ v,
            result_bind (format_go None r args kwargs) (λ rest,
            Ok (v +:+ rest)))
          else format_go (Some (name +:+ chr c)) r args kwargs
      | None =>
          if Ascii.eqb c LBRACE then
            match r with
            | String d r' =>
                if Ascii.eqb d LBRACE then
                  result_bind (format_go None r' args kwargs) (λ rest,
                  Ok (String LBRACE rest))
                else format_go (Some EmptyString) r args kwargs
            | EmptyString => Err ValueError
            end
          else if Ascii.eqb c RBRACE then
            match r with
            | String d r' =>
                if Ascii.eqb d RBRACE then
                  result_bind (format_go None r' args kwargs) (λ rest,
                  Ok (String RBRACE rest))
                else Err ValueError
            | EmptyString => Err ValueError
            end
          else
            result_bind (format_go None r args kwargs) (λ rest,
            Ok (String c rest))
      end
  end.

Definition format (template : string) (args : list string)
    (kwargs : list (string * string)) : result string :=
  format_go None template args kwargs.

End Py.

(** ** Configuration and statement templates *)

(** The module-level configuration constants of the script. *)
Record Config : Type := {
  ATHENA_S3_BUCKET_NAME : string;
  TABLE_NAME : string;
  CLOUDTRAIL_S3_BUCKET_NAME : string
}.

(** The configuration with another value for [TABLE_NAME]. *)
Definition with_table (cfg : Config) (table : string) : Config := {|
  ATHENA_S3_BUCKET_NAME := ATHENA_S3_BUCKET_NAME cfg;
  TABLE_NAME := table;
  CLOUDTRAIL_S3_BUCKET_NAME := CLOUDTRAIL_S3_BUCKET_NAME cfg
|}.

Definition script_config : Config := {|
  ATHENA_S3_BUCKET_NAME := "s3://athena-history-bucket-demo";
  TABLE_NAME := "cloudtrail_logs";
  CLOUDTRAIL_S3_BUCKET_NAME := "s3://cloudtrail-logs-bucket/AWSLogs/123456789012/"
|}.

Definition CREATE_TABLE_QUERY_TEMPLATE : string :=
  "CREATE EXTERNAL TABLE {0} (
eventversion STRING,
userIdentity STRUCT<
  type:STRING,
  principalid:STRING,
  arn:STRING,
  accountid:STRING,
  invokedby:STRING,
  accesskeyid:STRING,
  userName:STRING,
  sessioncontext:STRUCT<
    attributes:STRUCT<
      mfaauthenticated:STRING,
      creationdate:STRING>,
    sessionIssuer:STRUCT<
      type:STRING,
      principalId:STRING,
      arn:STRING,
      accountId:STRING,
      userName:STRING>>>,
eventTime STRING,
eventSource STRING,
eventName STRING,
awsRegion STRING,
sourceIpAddress STRING,
userAgent STRING,
errorCode STRING,
errorMessage STRING,
requestParameters STRING,
responseElements STRING,
additionalEventData STRING,
requestId STRING,
eventId STRING,
resources ARRAY<STRUCT<
  ARN:STRING,accountId:
  STRING,type:STRING>>,
eventType STRING,
apiVersion STRING,
readOnly STRING,
recipientAccountId STRING,
serviceEventDetails STRING,
sharedEventID STRING,
vpcEndpointId STRING
)
PARTITIONED BY(year string)
ROW FORMAT SERDE 'com.amazon.emr.hive.serde.CloudTrailSerde'
STORED AS INPUTFORMAT 'com.amazon.emr.cloudtrail.CloudTrailInputFormat'
OUTPUTFORMAT 'org.apache.hadoop.hive.ql.io.HiveIgnoreKeyTextOutputFormat'
LOCATION '{1}';".

Definition CREATE_PARTITON_QUERY_TEMPLATE : string :=
  Eval vm_compute in
    "
ALTER TABLE cloudtrail_logs add partition (year=" +:+ Py.chr Py.DQUOTE +:+
    "2018" +:+ Py.chr Py.DQUOTE +:+
    ")
location '{0}/CloudTrail/us-east-1/2018/'".

Definition LAST_RUN_QUERY_TEMPLATE : string :=
  Eval vm_compute in
    "
select json_extract_scalar(requestparameters, '$.functionName') as function_name, Max (eventtime) as " +:+ Py.chr Py.DQUOTE +:+
    "Last Run" +:+ Py.chr Py.DQUOTE +:+
    "
from cloudtrail_logs
where eventname='Invoke'
and year='2018'
and from_iso8601_timestamp(eventtime) > current_timestamp - interval '1' month
and json_extract_scalar(requestparameters, '$.functionName') in ({function_arns})
group by json_extract_scalar(requestparameters, '$.functionName')".

(** ** QueryBuilder: [build_query_strings] *)

Definition build_query_strings (cfg : Config) (function_arns : list string)
    : result (string * string * string) :=
  let function_arns_csv := Py.slice_1_m1 (Py.str_list function_arns) in
  result_bind (Py.format CREATE_TABLE_QUERY_TEMPLATE
                 [TABLE_NAME cfg; CLOUDTRAIL_S3_BUCKET_NAME cfg] [])
    (λ create_table_query,
  result_bind (Py.format CREATE_PARTITON_QUERY_TEMPLATE
                 [CLOUDTRAIL_S3_BUCKET_NAME cfg] [])
    (λ create_partition_query,
  result_bind (Py.format LAST_RUN_QUERY_TEMPLATE []
                 [("function_arns", function_arns_csv)])
    (λ last_run_query,
  Ok (create_table_query, create_partition_query, last_run_query)))).

(** ** ResultRowParser: [get_set_of_function_arns_from_result_set] *)

(** A cell of a result row: the dictionary has the key [VarCharValue] or,
    for a null cell, lacks it. *)
Record Datum : Type := { VarCharValue : option string }.

Record Row : Type := { Data : list Datum }.

(** [row['Data'][0]['VarCharValue']]: [IndexError] on a row without cells,
    [KeyError] on a first cell without value. *)
Definition target_cell (row : Row) : result string :=
  match Data row !! 0%nat with
  | None => Err IndexError
  | Some cell =>
      match VarCharValue cell with
      | None => Err (KeyError "VarCharValue")
      | Some v => Ok v
      end
  end.

(** The [for] loop over the data rows; an exception ends the loop and the
    function. *)
Fixpoint rows_loop (rows : list Row) (set_of_functions_used : gset string)
    : result (gset string) :=
  match rows with
  | [] => Ok set_of_functions_used
  | row :: rest =>
      match target_cell row with
      | Err e => Err e
      | Ok function_arn =>
          rows_loop rest (set_of_functions_used ∪ {[function_arn]})
      end
  end.

Definition get_set_of_function_arns_from_result_set (result_set : list Row)
    : result (gset string) :=
  rows_loop (drop 1 result_set) ∅.

(** A row whose target cell is missing (no cell at all) or null (a first
    cell without value). *)
Definition lacks_target_cell (row : Row) : Prop :=
  match Data row with
  | [] => True
  | cell :: _ => VarCharValue cell = None
  end.

(** ** Reconciliation (the set difference computed in [main]) *)

(** [set(function_arns) - set_of_functions_used] *)
Definition difference_set (function_arns : list string)
    (set_of_functions_used : gset string) : gset string :=
  list_to_set function_arns ∖ set_of_functions_used.

(** [list(...)] of that set.  Python fixes no order for the iteration of a
    set: the order CPython gives depends on the hashes of the run and on how
    the operands were built, so that sets with the same members may be
    listed differently.  The order is a parameter of the model: any way of
    listing the difference of the two operands, each member once. *)
Record SetOrder : Type := {
  list_of_difference : list string → gset string → list string;
  list_of_difference_perm :
    ∀ function_arns set_of_functions_used,
      list_of_difference function_arns set_of_functions_used
      ≡ₚ elements (list_to_set function_arns ∖ set_of_functions_used)
}.

Definition difference_list (set_order : SetOrder)
    (function_arns : list string) (set_of_functions_used : gset string)
    : list string :=
  list_of_difference set_order function_arns set_of_functions_used.

(** Two orders, for the runs on the scripted service: the enumeration of
    [elements], and the same backwards. *)
Definition canonical_order : SetOrder := {|
  list_of_difference l s := elements (list_to_set l ∖ s);
  list_of_difference_perm := λ l s, reflexivity _
|}.

Definition reversed_order : SetOrder := {|
  list_of_difference l s := reverse (elements (list_to_set l ∖ s));
  list_of_difference_perm := λ l s, reverse_Permutation _
|}.

(** ** The service clients *)

(** The response of [get_query_results]: one page of rows
    ([response['ResultSet']['Rows']]) and the token of the next page, if
    there is one. *)
Record QueryResults : Type := {
  Rows : list Row;
  NextToken : option string
}.

(** The Athena client over a service state [S].  The status call answers
    with the state name ([waiter['QueryExecution']['Status']['State']]).
    Every call answers: errors raised by the client itself are not part of
    the model. *)
Record AthenaClient (S : Type) : Type := {
  start_query_execution :
    string (* QueryString *) → string (* Database *) →
    string (* OutputLocation *) → S → string (* QueryExecutionId *) * S;
  get_query_execution :
    string (* QueryExecutionId *) → S → string (* State *) * S;
  get_query_results :
    string (* QueryExecutionId *) → option string (* NextToken *) → S →
    QueryResults * S
}.
Arguments start_query_execution {S} _ _ _ _ _.
Arguments get_query_execution {S} _ _ _.
Arguments get_query_results {S} _ _ _ _.

Record FunctionConfiguration : Type := { FunctionArn : string }.

(** The Lambda client: what [list_functions()['Functions']] holds. *)
Record LambdaClient : Type := { list_functions : list FunctionConfiguration }.

(** The calls made to the query service, in the order they are made. *)
Inductive Call : Type :=
  | StartQueryExecution (QueryString QueryExecutionId : string)
  | GetQueryExecution (QueryExecutionId State : string)
  | GetQueryResults (QueryExecutionId : string) (token : option string).

(** ** Effects: service state, call log, standard output, sleeping *)

Record World (S : Type) : Type := {
  service : S;
  calls : list Call;
  stdout : list string;
  slept : nat
}.
Arguments Build_World {S} _ _ _ _.
Arguments service {S} _.
Arguments calls {S} _.
Arguments stdout {S} _.
Arguments slept {S} _.

Inductive Outcome (A : Type) : Type :=
  | Returned (a : A)
  | Raised (e : Exn)
  | OutOfFuel.
Arguments Returned {A} a.
Arguments Raised {A} e.
Arguments OutOfFuel {A}.

Definition M (S A : Type) : Type := World S → Outcome A * World S.

Definition ret {S A} (a : A) : M S A := λ w, (Returned a, w).

Definition raise {S A} (e : Exn) : M S A := λ w, (Raised e, w).

Definition bind {S A B} (m : M S A) (k : A → M S B) : M S B :=
  λ w, match m w with
       | (Returned a, w') => k a w'
       | (Raised e, w') => (Raised e, w')
       | (OutOfFuel, w') => (OutOfFuel, w')
       end.

Definition lift {S A} (r : result A) : M S A :=
  match r with
  | Ok a => ret a
  | Err e => raise e
  end.

Declare Scope py_scope.
Delimit Scope py_scope with py.
Notation "x <- c ;; k" := (bind c (λ x, k))
  (at level 100, c at next level, right associativity) : py_scope.
Notation "c ;; k" := (bind c (λ _, k))
  (at level 100, right associativity) : py_scope.
Open Scope py_scope.

Definition print {S} (line : string) : M S unit :=
  λ w, (Returned tt,
        Build_World (service w) (calls w) (stdout w ++ [line]) (slept w)).

Definition sleep {S} (seconds : nat) : M S unit :=
  λ w, (Returned tt,
        Build_World (service w) (calls w) (stdout w) (slept w + seconds)).

Fixpoint mapM {S A B} (f : A → M S B) (l : list A) : M S (list B) :=
  match l with
  | [] => ret []
  | x :: r => y <- f x ;; ys <- mapM f r ;; ret (y :: ys)
  end.

(** ** AsyncQueryExecutor: [run_query], and the orchestration in [main] *)

(** How the [while] loop of [run_query] is left: its condition became
    false, or the [return] in its body was taken. *)
Inductive LoopExit : Type :=
  | ConditionFalse
  | ReturnNone.

Section Script.

Context {S : Type}.
Variable athena_client : AthenaClient S.
Variable cfg : Config.

Definition call_start_query_execution (QueryString Database
    OutputLocation : string) : M S string :=
  λ w, let '(QueryExecutionId, s) :=
         start_query_execution athena_client QueryString Database
           OutputLocation (service w) in
       (Returned QueryExecutionId,
        Build_World s
          (calls w ++ [StartQueryExecution QueryString QueryExecutionId])
          (stdout w) (slept w)).

Definition call_get_query_execution (QueryExecutionId : string)
    : M S string :=
  λ w, let '(State, s) :=
         get_query_execution athena_client QueryExecutionId (service w) in
       (Returned State,
        Build_World s (calls w ++ [GetQueryExecution QueryExecutionId State])
          (stdout w) (slept w)).

Definition call_get_query_results (QueryExecutionId : string)
    (token : option string) : M S QueryResults :=
  λ w, let '(results, s) :=
         get_query_results athena_client QueryExecutionId token
           (service w) in
       (Returned results,
        Build_World s (calls w ++ [GetQueryResults QueryExecutionId token])
          (stdout w) (slept w)).

(** [while execution_status != 'SUCCEEDED': ...]; one unit of fuel per
    iteration of the body. *)
Fixpoint run_query_while (fuel : nat) (QueryExecutionId : string)
    (execution_status : option string) : M S LoopExit :=
  if decide (execution_status = Some "SUCCEEDED") then ret ConditionFalse
  else
    match fuel with
    | O => λ w, (OutOfFuel, w)
    | Datatypes.S fuel' =>
        execution_status <-
          call_get_query_execution (Py.lstrip "ID" QueryExecutionId) ;;
        if decide (execution_status = "FAILED") then
          print "The query failed. Check the Athena history for details." ;;
          ret ReturnNone
        else
          print "Running" ;;
          sleep 5 ;;
          run_query_while fuel' QueryExecutionId (Some execution_status)
    end.

(** [None] is Python's [None], returned when the query failed. *)
Definition run_query (fuel : nat) (query : string)
    : M S (option QueryResults) :=
  QueryExecutionId <-
    call_start_query_execution query "default" (ATHENA_S3_BUCKET_NAME cfg) ;;
  print ("Query Execution ID: " +:+ QueryExecutionId) ;;
  exit <- run_query_while fuel QueryExecutionId None ;;
  match exit with
  | ReturnNone => ret None
  | ConditionFalse =>
      results <- call_get_query_results QueryExecutionId None ;;
      ret (Some results)
  end.

Definition NL : string := Py.chr "010".

Definition retrieve_function_arns (lambda_client : LambdaClient)
    : M S (list string) :=
  let functions := list_functions lambda_client in
  let function_arns := map FunctionArn functions in
  let count := length functions in
  print ("You have " +:+ pretty count +:+ " functions in this region" +:+ NL) ;;
  print ("Now the script will run the following Athena queries:" +:+ NL) ;;
  print "1) Create the Athena table for CloudTrail" ;;
  print "2) Add a partition for 2018 to the new table" ;;
  print ("3) Query Athena for the Lambda functions that have been invoked in the past 30 days" +:+ NL) ;;
  sleep 2 ;;
  ret function_arns.

(** [query_results[-1]['ResultSet']['Rows']] *)
Definition last_result_set (query_results : list (option QueryResults))
    : result (list Row) :=
  match last query_results with
  | None => Err IndexError
  | Some None => Err TypeError
  | Some (Some results) => Ok (Rows results)
  end.

(** The order in which this run of the interpreter lists a set. *)
Variable set_order : SetOrder.

(** [main] returns nothing in Python; here it returns the set whose
    members it prints, so that statements can talk about it. *)
Definition main (fuel : nat) (lambda_client : LambdaClient)
    : M S (gset string) :=
  function_arns <- retrieve_function_arns lambda_client ;;
  queries <- lift (build_query_strings cfg function_arns) ;;
  let '(create_table_query, create_partition_query, last_run_query) :=
    queries in
  query_results <-
    mapM (run_query fuel)
      [create_table_query; create_partition_query; last_run_query] ;;
  result_set <- lift (last_result_set query_results) ;;
  set_of_functions_used <-
    lift (get_set_of_function_arns_from_result_set result_set) ;;
  print (NL +:+ "Here are the functions that haven't been invoked in the past 30 days") ;;
  mapM print (difference_list set_order function_arns set_of_functions_used) ;;
  ret (difference_set function_arns set_of_functions_used).

End Script.

Definition initial_world {S} (s : S) : World S := Build_World s [] [] 0.

(** ** The three statements in closed form

    The text of each template around its replacement fields; the lemmas
    below show that [build_query_strings] produces exactly these. *)

(** [s[i:j]] for [i <= j <= len(s)] *)
Definition slice (i j : nat) (s : string) : string :=
  String.substring i (j - i) s.

Definition create_table_statement (table location : string) : string :=
  slice 0 22 CREATE_TABLE_QUERY_TEMPLATE +:+ table +:+
  slice 25 1187 CREATE_TABLE_QUERY_TEMPLATE +:+ location +:+
  slice 1190 1192 CREATE_TABLE_QUERY_TEMPLATE.

Definition add_partition_statement (location : string) : string :=
  slice 0 67 CREATE_PARTITON_QUERY_TEMPLATE +:+ location +:+
  slice 70 98 CREATE_PARTITON_QUERY_TEMPLATE.

Definition compute_activity_statement (function_arns_csv : string) : string :=
  slice 0 319 LAST_RUN_QUERY_TEMPLATE +:+ function_arns_csv +:+
  slice 334 401 LAST_RUN_QUERY_TEMPLATE.

(** [needle in text] *)
Definition occurs_in (needle text : string) : Prop :=
  ∃ before after, text = before +:+ needle +:+ after.

(** The rendering of an identifier in the specification's words: the
    identifier between single quotes, nothing escaped. *)
Definition spec_single_quoted (id : string) : string :=
  "'" +:+ id +:+ "'".

Definition double_quoted (id : string) : string :=
  Py.chr Py.DQUOTE +:+ id +:+ Py.chr Py.DQUOTE.

(** An identifier whose [repr] is the identifier between single quotes:
    printable characters only, none of them a single quote or a backslash. *)
Fixpoint plain (s : string) : bool :=
  match s with
  | EmptyString => true
  | String c r =>
      Py.isprintable c && negb (Ascii.eqb c Py.SQUOTE)
      && negb (Ascii.eqb c Py.BACKSLASH) && plain r
  end.

(** Printable characters only, none of them a double quote or a backslash
    (single quotes allowed). *)
Fixpoint plain_but_squote (s : string) : bool :=
  match s with
  | EmptyString => true
  | String c r =>
      Py.isprintable c && negb (Ascii.eqb c Py.DQUOTE)
      && negb (Ascii.eqb c Py.BACKSLASH) && plain_but_squote r
  end.

(** ** Shapes of the call log *)

(** The status calls of one execution: the identifier goes through
    [lstrip('ID')]. *)
Definition polls (QueryExecutionId : string) (states : list string)
    : list Call :=
  map (GetQueryExecution (Py.lstrip "ID" QueryExecutionId)) states.

(** A reported state on which the loop of [run_query] goes round again. *)
Definition keeps_polling (State : string) : Prop :=
  State ≠ "SUCCEEDED" ∧ State ≠ "FAILED".

(** The calls of one [run_query], by outcome. *)
Inductive run_query_calls (query : string)
    : Outcome (option QueryResults) → list Call → Prop :=
  | calls_succeeded id states results :
      Forall keeps_polling states →
      run_query_calls query (Returned (Some results))
        (StartQueryExecution query id
           :: polls id (states ++ ["SUCCEEDED"]) ++ [GetQueryResults id None])
  | calls_failed id states :
      Forall keeps_polling states →
      run_query_calls query (Returned None)
        (StartQueryExecution query id :: polls id (states ++ ["FAILED"]))
  | calls_out_of_fuel id states :
      Forall keeps_polling states →
      run_query_calls query OutOfFuel
        (StartQueryExecution query id :: polls id states).

(** The last state reported to the loop of [run_query], by the way the
    loop is left; none yet when the fuel ran out. *)
Definition last_state (o : Outcome LoopExit) : list string :=
  match o with
  | Returned ConditionFalse => ["SUCCEEDED"]
  | Returned ReturnNone => ["FAILED"]
  | _ => []
  end.

(** A [run_query] that came back, with or without results. *)
Definition completed (query : string) (log : list Call) : Prop :=
  ∃ r, run_query_calls query (Returned r) log.

Definition still_polling (query : string) (log : list Call) : Prop :=
  run_query_calls query OutOfFuel log.

(** The calls of [main] on the statements [q1], [q2], [q3]: each statement
    is started when the one before has come back. *)
Inductive main_calls (q1 q2 q3 : string) : bool → list Call → Prop :=
  | main_all l1 l2 l3 :
      completed q1 l1 → completed q2 l2 → completed q3 l3 →
      main_calls q1 q2 q3 true (l1 ++ l2 ++ l3)
  | main_in_third l1 l2 l3 :
      completed q1 l1 → completed q2 l2 → still_polling q3 l3 →
      main_calls q1 q2 q3 false (l1 ++ l2 ++ l3)
  | main_in_second l1 l2 :
      completed q1 l1 → still_polling q2 l2 →
      main_calls q1 q2 q3 false (l1 ++ l2)
  | main_in_first l1 :
      still_polling q1 l1 →
      main_calls q1 q2 q3 false l1.

Definition is_start (c : Call) : bool :=
  match c with StartQueryExecution _ _ => true | _ => false end.

Definition is_fetch (c : Call) : bool :=
  match c with GetQueryResults _ _ => true | _ => false end.

(** The statements submitted, in order. *)
Definition submitted (log : list Call) : list string :=
  omap (λ c, match c with
             | StartQueryExecution q _ => Some q
             | _ => None
             end) log.

Definition out_of_fuel {A} (o : Outcome A) : bool :=
  match o with OutOfFuel => true | _ => false end.

(** The three statements [main] hands to [run_query]. *)
Definition statements (cfg : Config) (lambda_client : LambdaClient) : list string :=
  [create_table_statement (TABLE_NAME cfg) (CLOUDTRAIL_S3_BUCKET_NAME cfg);
   add_partition_statement (CLOUDTRAIL_S3_BUCKET_NAME cfg);
   compute_activity_statement
     (Py.join ", " (map Py.repr (map FunctionArn (list_functions lambda_client))))].

(** What [main] yields once the three [run_query] calls have come back. *)
Definition report (function_arns : list string)
    (query_results : list (option QueryResults)) : Outcome (gset string) :=
  match last_result_set query_results with
  | Err e => Raised e
  | Ok result_set =>
      match get_set_of_function_arns_from_result_set result_set with
      | Err e => Raised e
      | Ok used => Returned (difference_set function_arns used)
      end
  end.

(** The service state after [n] status calls for an execution, and the
    state name the next such call reports. *)
Fixpoint after_polls {S} (athena_client : AthenaClient S)
    (QueryExecutionId : string) (n : nat) (s : S) : S :=
  match n with
  | O => s
  | Datatypes.S n' =>
      after_polls athena_client QueryExecutionId n'
        (get_query_execution athena_client QueryExecutionId s).2
  end.

Definition nth_state {S} (athena_client : AthenaClient S)
    (QueryExecutionId : string) (n : nat) (s : S) : string :=
  (get_query_execution athena_client QueryExecutionId
     (after_polls athena_client QueryExecutionId n s)).1.

(** ** The whole result set, as the service holds it

    Follows the specification's words: every page, from the first, in
    order, until a page carries no token. *)
Fixpoint spec_full_result_set {S} (athena_client : AthenaClient S)
    (pages : nat) (QueryExecutionId : string) (token : option string) (s : S)
    : list Row :=
  let '(page, s') := get_query_results athena_client QueryExecutionId token s in
  match NextToken page, pages with
  | Some t, Datatypes.S pages' =>
      Rows page ++
      spec_full_result_set athena_client pages' QueryExecutionId (Some t) s'
  | _, _ => Rows page
  end.

(** ** A scripted query service

    The [n]-th submission is given the identifier [ids n]; the [n]-th status
    call (counted over the whole run) is answered [states n]; the result of
    any execution is [pages], one page per call, the token of a page being
    the number of the next one. *)
Record Mock : Type := { submissions : nat; status_calls : nat }.

Definition page_of (pages : list (list Row)) (token : option string)
    : QueryResults :=
  let n := match token with
           | None => 0%nat
           | Some t => Py.index_of_digits 0 t
           end in
  {| Rows := default [] (pages !! n);
     NextToken := if decide (Datatypes.S n < length pages)%nat
                  then Some (pretty (Datatypes.S n)) else None |}.

Definition mock_athena (ids : nat → string) (states : nat → string)
    (pages : list (list Row)) : AthenaClient Mock := {|
  start_query_execution := λ _ _ _ m,
    (ids (submissions m),
     {| submissions := Datatypes.S (submissions m);
        status_calls := status_calls m |});
  get_query_execution := λ _ m,
    (states (status_calls m),
     {| submissions := submissions m;
        status_calls := Datatypes.S (status_calls m) |});
  get_query_results := λ _ token m, (page_of pages token, m)
|}.

Definition mock0 : Mock := {| submissions := 0; status_calls := 0 |}.

Definition cell (v : string) : Datum := {| VarCharValue := Some v |}.
Definition null_cell : Datum := {| VarCharValue := None |}.
Definition row (cells : list Datum) : Row := {| Data := cells |}.

Definition header : Row := row [cell "function_name"; cell "Last Run"].

(** The states of successive status calls given as a list; past its end the
    service keeps answering [final]. *)
Definition scripted (l : list string) (final : string) : nat → string :=
  λ n, default final (l !! n).

Definition numbered_ids : nat → string := λ n, "query-" +:+ pretty n.

Definition lambda_of (arns : list string) : LambdaClient :=
  {| list_functions := map Build_FunctionConfiguration arns |}.


(** ** Scenarios *)

Definition inventory_abc : LambdaClient := lambda_of ["fn-a"; "fn-b"; "fn-c"].

Definition active_a_c : list Row :=
  [header;
   row [cell "fn-a"; cell "2018-06-01T00:00:00Z"];
   row [cell "fn-c"; cell "2018-06-02T00:00:00Z"]].

(** Every statement succeeds at its first status call. *)
Definition all_succeed : AthenaClient Mock :=
  mock_athena numbered_ids (scripted [] "SUCCEEDED") [active_a_c].

(** [create_table] is reported FAILED, the two other statements SUCCEEDED. *)
Definition create_table_fails : AthenaClient Mock :=
  mock_athena numbered_ids
    (scripted ["FAILED"; "SUCCEEDED"; "SUCCEEDED"] "SUCCEEDED") [active_a_c].

(** The result comes in two pages, fn-c on the second. *)
Definition page_1 : list Row :=
  [header; row [cell "fn-a"; cell "2018-06-01T00:00:00Z"]].
Definition page_2 : list Row :=
  [row [cell "fn-c"; cell "2018-06-02T00:00:00Z"]].

Definition two_pages : AthenaClient Mock :=
  mock_athena numbered_ids (scripted [] "SUCCEEDED") [page_1; page_2].

(** The execution is reported RUNNING by the status calls [running] lists
    (any states that are neither SUCCEEDED nor FAILED will do), then
    CANCELLED for ever. *)
Definition cancelled_after (ids : nat → string) (running : list string)
    (pages : list (list Row)) : AthenaClient Mock :=
  mock_athena ids (scripted running "CANCELLED") pages.

(** An identifier that begins with the letter D. *)
Definition upper_case_id : string := "D0E1F2A3-7B6C-4D5E-8F90-123456789ABC".

Definition upper_case_ids : AthenaClient Mock :=
  mock_athena (λ _, upper_case_id) (scripted [] "SUCCEEDED") [active_a_c].

(** ** Further notions on strings, rows and the call log *)

(** Every character of [s] occurs in [chars]. *)
Fixpoint all_in (chars s : string) : bool :=
  match s with
  | EmptyString => true
  | String c r => Py.contains c chars && all_in chars r
  end.

(** [s] begins with a character that occurs in [chars]. *)
Definition starts_in (chars s : string) : bool :=
  match s with
  | EmptyString => false
  | String c _ => Py.contains c chars
  end.

(** A character that [repr] leaves as it is between single quotes. *)
Definition plain_char (c : ascii) : bool :=
  Py.isprintable c && negb (Ascii.eqb c Py.SQUOTE)
  && negb (Ascii.eqb c Py.BACKSLASH).

(** Reading a quoted literal from after its opening quote: is there a
    [quote] character that no backslash escapes?  [escaped] tells that the
    character before was an escaping backslash. *)
Fixpoint bare_quote (quote : ascii) (escaped : bool) (s : string) : bool :=
  match s with
  | EmptyString => false
  | String c r =>
      if escaped then bare_quote quote false r
      else if Ascii.eqb c Py.BACKSLASH then bare_quote quote true r
      else if Ascii.eqb c quote then true
      else bare_quote quote false r
  end.

(** The values of the target cells of the rows that have one. *)
Definition first_cells (rows : list Row) : list string :=
  omap (λ r, match target_cell r with
             | Ok v => Some v
             | Err _ => None
             end) rows.

Definition has_target_cell (r : Row) : bool :=
  match target_cell r with
  | Ok _ => true
  | Err _ => false
  end.

(** The execution identifier a call is made for (or, for the submission,
    answered with). *)
Definition call_id (c : Call) : string :=
  match c with
  | StartQueryExecution _ id => id
  | GetQueryExecution id _ => id
  | GetQueryResults id _ => id
  end.

(** A status call after which the loop of [run_query] printed "Running" and
    slept: any but one answered FAILED. *)
Definition is_round (c : Call) : bool :=
  match c with
  | GetQueryExecution _ State => bool_decide (State ≠ "FAILED")
  | _ => false
  end.

Definition rounds (log : list Call) : nat := length (filter (λ c, is_round c = true) log).


(** The part of [main] after the loop over the statements, applied to the
    loop. *)
Definition conclude {S} (set_order : SetOrder) (function_arns : list string)
    (loop : M S (list (option QueryResults))) : M S (gset string) :=
  query_results <- loop ;;
  result_set <- lift (last_result_set query_results) ;;
  set_of_functions_used <-
    lift (get_set_of_function_arns_from_result_set result_set) ;;
  print (NL +:+ "Here are the functions that haven't been invoked in the past 30 days") ;;
  mapM print (difference_list set_order function_arns set_of_functions_used) ;;
  ret (difference_set function_arns set_of_functions_used).

Definition heading : string :=
  NL +:+ "Here are the functions that haven't been invoked in the past 30 days".


(** The exception of [row['Data'][0]['VarCharValue']] on a row that lacks
    its target cell, by what is missing. *)
Definition missing_cell_error (r : Row) : Exn :=
  match Data r with
  | [] => IndexError
  | _ :: _ => KeyError "VarCharValue"
  end.

(** The states answered to the first [n] status calls for an execution. *)
Definition first_states {S} (athena_client : AthenaClient S)
    (QueryExecutionId : string) (n : nat) (s : S) : list string :=
  map (λ j, nth_state athena_client QueryExecutionId j s) (seq 0 n).

(** * Properties *)

(** ** Python string primitives *)

Lemma append_cons (x : ascii) (a b : string) :
  String x a +:+ b = String x (a +:+ b).
Proof. reflexivity. Qed.

Lemma append_nil_l (s : string) : EmptyString +:+ s = s.
Proof. reflexivity. Qed.

Lemma append_nil_r (s : string) : s +:+ EmptyString = s.
Proof.
  induction s as [|c s IH]; [done|]. by rewrite append_cons, IH.
Qed.

Lemma append_assoc (a b c : string) : (a +:+ b) +:+ c = a +:+ b +:+ c.
Proof.
  induction a as [|x a IH]; [done|]. by rewrite !append_cons, IH.
Qed.

Lemma append_inv_head (a b c : string) : a +:+ b = a +:+ c → b = c.
Proof.
  induction a as [|x a IH]; [done|]. rewrite !append_cons. intros [= H]. auto.
Qed.

Lemma append_length (a b : string) :
  String.length (a +:+ b) = (String.length a + String.length b)%nat.
Proof.
  induction a as [|x a IH]; [done|]. rewrite append_cons. cbn. by rewrite IH.
Qed.

Lemma append_inv_tail (a b c : string) : a +:+ c = b +:+ c → a = b.
Proof.
  revert b. induction a as [|x a IH]; intros [|y b];
    rewrite ?append_cons, ?append_nil_l; try done.
  - intros H. apply (f_equal String.length) in H. cbn in H.
    rewrite append_length in H. lia.
  - intros H. apply (f_equal String.length) in H. cbn in H.
    rewrite append_length in H. lia.
  - intros [= -> H]. f_equal. auto.
Qed.

Lemma removelast_snoc (s : string) (c : ascii) :
  Py.removelast (s +:+ Py.chr c) = s.
Proof.
  induction s as [|x s IH]; [done|]. rewrite append_cons. cbn.
  destruct (s +:+ Py.chr c) eqn:E.
  - destruct s; discriminate.
  - by rewrite IH.
Qed.

(** [str(l)[1:-1]] is the comma-separated list of the [repr]s. *)
Lemma slice_str_list (l : list string) :
  Py.slice_1_m1 (Py.str_list l) = Py.join ", " (map Py.repr l).
Proof. unfold Py.str_list. apply (removelast_snoc _ "]"). Qed.

Lemma repr_char_printable (quote c : ascii) :
  Py.isprintable c = true → Ascii.eqb c quote = false →
  Ascii.eqb c Py.BACKSLASH = false →
  Py.repr_char quote c = Py.chr c.
Proof.
  intros Hp Hq Hb. unfold Py.repr_char. rewrite Hq, Hb, Hp. cbn.
  destruct (Ascii.eqb_spec c "009") as [->|]; [done|].
  destruct (Ascii.eqb_spec c "010") as [->|]; [done|].
  destruct (Ascii.eqb_spec c "013") as [->|]; done.
Qed.

Lemma repr_body_plain (s : string) :
  plain s = true → Py.repr_body Py.SQUOTE s = s.
Proof.
  induction s as [|c s IH]; [done|]. cbn [plain plain_but_squote Py.repr_body].
  intros H. apply andb_prop in H as [H Hs].
  apply andb_prop in H as [H Hb]. apply andb_prop in H as [Hp Hq].
  apply negb_true_iff in Hq, Hb.
  by rewrite IH, repr_char_printable.
Qed.

Lemma repr_body_plain_but_squote (s : string) :
  plain_but_squote s = true → Py.repr_body Py.DQUOTE s = s.
Proof.
  induction s as [|c s IH]; [done|]. cbn [plain plain_but_squote Py.repr_body].
  intros H. apply andb_prop in H as [H Hs].
  apply andb_prop in H as [H Hb]. apply andb_prop in H as [Hp Hq].
  apply negb_true_iff in Hq, Hb.
  by rewrite IH, repr_char_printable.
Qed.

Lemma plain_no_squote (s : string) :
  plain s = true → Py.contains Py.SQUOTE s = false.
Proof.
  induction s as [|c s IH]; [done|]. cbn [plain Py.contains].
  intros H. apply andb_prop in H as [H Hs].
  apply andb_prop in H as [H Hb]. apply andb_prop in H as [Hp Hq].
  apply negb_true_iff in Hq. rewrite Ascii.eqb_sym in Hq.
  rewrite Hq. auto.
Qed.

Lemma plain_but_squote_no_dquote (s : string) :
  plain_but_squote s = true → Py.contains Py.DQUOTE s = false.
Proof.
  induction s as [|c s IH]; [done|]. cbn [plain_but_squote Py.contains].
  intros H. apply andb_prop in H as [H Hs].
  apply andb_prop in H as [H Hb]. apply andb_prop in H as [Hp Hq].
  apply negb_true_iff in Hq. rewrite Ascii.eqb_sym in Hq.
  rewrite Hq. auto.
Qed.

(** An identifier of printable characters without quote or backslash is put
    between single quotes as it is. *)
Lemma repr_plain (s : string) :
  plain s = true → Py.repr s = spec_single_quoted s.
Proof.
  intros H. unfold Py.repr, Py.repr_quote.
  rewrite (plain_no_squote s H). cbn. by rewrite repr_body_plain.
Qed.

(** With a single quote and no double quote, the identifier is put between
    double quotes, its single quotes as they are. *)
Lemma repr_with_squote (s : string) :
  plain_but_squote s = true → Py.contains Py.SQUOTE s = true →
  Py.repr s = double_quoted s.
Proof.
  intros H Hq. unfold Py.repr, Py.repr_quote.
  rewrite Hq, (plain_but_squote_no_dquote s H). cbn.
  by rewrite repr_body_plain_but_squote.
Qed.

(** ** QueryBuilder *)

Lemma build_query_strings_closed_form (cfg : Config) (function_arns : list string) :
  build_query_strings cfg function_arns =
    Ok (create_table_statement (TABLE_NAME cfg) (CLOUDTRAIL_S3_BUCKET_NAME cfg),
        add_partition_statement (CLOUDTRAIL_S3_BUCKET_NAME cfg),
        compute_activity_statement
          (Py.join ", " (map Py.repr function_arns))).
Proof.
  unfold build_query_strings. rewrite slice_str_list.
  generalize (Py.join ", " (map Py.repr function_arns)). intros csv.
  destruct cfg as [hist table loc]. vm_compute. reflexivity.
Qed.

Lemma create_table_statement_inj (t t' location : string) :
  create_table_statement t location = create_table_statement t' location →
  t = t'.
Proof.
  unfold create_table_statement. intros H.
  apply append_inv_head in H. eapply append_inv_tail, H.
Qed.

(** C9: of the three statements only [create_table] depends on
    [TABLE_NAME].  Whatever the table name is changed to, the
    [add_partition] and [compute_activity] statements stay the same, and
    they name the table by the literal [cloudtrail_logs]; the
    [create_table] statement is the same exactly when the table name is. *)
Theorem table_name_only_in_create_table (cfg : Config) (table : string)
    (function_arns : list string) :
  ∃ create create' partition activity,
    build_query_strings cfg function_arns = Ok (create, partition, activity) ∧
    build_query_strings (with_table cfg table) function_arns
      = Ok (create', partition, activity) ∧
    (create = create' ↔ TABLE_NAME cfg = table) ∧
    occurs_in (NL +:+ "ALTER TABLE cloudtrail_logs add partition") partition ∧
    occurs_in (NL +:+ "from cloudtrail_logs" +:+ NL) activity.
Proof.
  eexists _, _, _, _. rewrite !build_query_strings_closed_form.
  split; [reflexivity|]. split; [reflexivity|]. split; [|split].
  - cbn [TABLE_NAME CLOUDTRAIL_S3_BUCKET_NAME with_table]. split.
    + apply create_table_statement_inj.
    + by intros ->.
  - exists EmptyString,
      (slice 42 67 CREATE_PARTITON_QUERY_TEMPLATE +:+
       CLOUDTRAIL_S3_BUCKET_NAME cfg +:+
       slice 70 98 CREATE_PARTITON_QUERY_TEMPLATE).
    generalize (CLOUDTRAIL_S3_BUCKET_NAME cfg). intros loc.
    vm_compute. reflexivity.
  - exists (slice 0 112 LAST_RUN_QUERY_TEMPLATE),
      (slice 134 319 LAST_RUN_QUERY_TEMPLATE +:+
       Py.join ", " (map Py.repr function_arns) +:+
       slice 334 401 LAST_RUN_QUERY_TEMPLATE).
    generalize (Py.join ", " (map Py.repr function_arns)). intros csv.
    vm_compute. reflexivity.
Qed.

Lemma table_name_only_in_create_table_witness :
  ∃ create create' partition activity,
    build_query_strings script_config ["fn-a"]
      = Ok (create, partition, activity) ∧
    build_query_strings (with_table script_config "other_table") ["fn-a"]
      = Ok (create', partition, activity) ∧
    (create = create' ↔ TABLE_NAME script_config = "other_table") ∧
    occurs_in (NL +:+ "ALTER TABLE cloudtrail_logs add partition") partition ∧
    occurs_in (NL +:+ "from cloudtrail_logs" +:+ NL) activity.
Proof. apply (table_name_only_in_create_table script_config "other_table"). Defined.

(** C7: on the empty list the identifier list of the [compute_activity]
    statement is empty: the filter reads [in ()], nothing standing between
    the parentheses. *)
Theorem empty_inventory_renders_empty_in_list (cfg : Config) :
  ∃ create partition,
    build_query_strings cfg []
      = Ok (create, partition, compute_activity_statement EmptyString) ∧
    occurs_in
      ("and json_extract_scalar(requestparameters, '$.functionName') in ()" +:+ NL
       +:+ "group by")
      (compute_activity_statement EmptyString).
Proof.
  eexists _, _. rewrite build_query_strings_closed_form. split; [reflexivity|].
  exists (slice 0 254 LAST_RUN_QUERY_TEMPLATE),
    (slice 344 401 LAST_RUN_QUERY_TEMPLATE).
  vm_compute. reflexivity.
Qed.

(** C10, as stated, fails at an identifier with a single quote: [repr] puts
    it between double quotes. *)
Lemma single_quoted_counterexample :
  build_query_strings script_config ["it's"]
    = Ok (create_table_statement (TABLE_NAME script_config)
            (CLOUDTRAIL_S3_BUCKET_NAME script_config),
          add_partition_statement (CLOUDTRAIL_S3_BUCKET_NAME script_config),
          compute_activity_statement (double_quoted "it's")) ∧
  build_query_strings script_config ["it's"]
    ≠ Ok (create_table_statement (TABLE_NAME script_config)
            (CLOUDTRAIL_S3_BUCKET_NAME script_config),
          add_partition_statement (CLOUDTRAIL_S3_BUCKET_NAME script_config),
          compute_activity_statement
            (Py.join ", " (map spec_single_quoted ["it's"]))).
Proof. split; [by vm_compute|]. vm_compute. discriminate. Qed.

Lemma join_map_ext (f g : string → string) (sep : string) (l : list string) :
  Forall (λ x, f x = g x) l → Py.join sep (map f l) = Py.join sep (map g l).
Proof. intros H. f_equal. by apply List.map_ext_Forall. Qed.

(** C10, amended: the [compute_activity] statement embeds [str(l)[1:-1]],
    that is the [repr]s of the identifiers separated by a comma and a space.
    An identifier of printable characters with no single quote and no
    backslash stands between single quotes as it is; one with a single
    quote, no double quote and no backslash stands between double quotes,
    its single quotes unescaped.  So when every identifier is of the first
    kind the list is the single-quoted identifiers. *)
Theorem compute_activity_embeds_repr (cfg : Config) (function_arns : list string) :
  (∃ create partition,
     build_query_strings cfg function_arns
       = Ok (create, partition,
             compute_activity_statement
               (Py.slice_1_m1 (Py.str_list function_arns)))) ∧
  Py.slice_1_m1 (Py.str_list function_arns)
    = Py.join ", " (map Py.repr function_arns) ∧
  Forall (λ id,
            (plain id = true → Py.repr id = spec_single_quoted id) ∧
            (plain_but_squote id = true → Py.contains Py.SQUOTE id = true →
             Py.repr id = double_quoted id)) function_arns ∧
  (Forall (λ id, plain id = true) function_arns →
   Py.slice_1_m1 (Py.str_list function_arns)
     = Py.join ", " (map spec_single_quoted function_arns)).
Proof.
  split; [|split; [|split]].
  - eexists _, _. by rewrite build_query_strings_closed_form, slice_str_list.
  - apply slice_str_list.
  - apply Forall_forall. intros id _. split.
    + apply repr_plain.
    + apply repr_with_squote.
  - intros H. rewrite slice_str_list. apply join_map_ext.
    eapply Forall_impl; [exact H|]. intros id. apply repr_plain.
Qed.

Lemma compute_activity_embeds_repr_witness :
  Py.slice_1_m1 (Py.str_list ["fn-a"; "fn-b"]) = "'fn-a', 'fn-b'" ∧
  Py.repr "it's" = double_quoted "it's".
Proof.
  split.
  - rewrite (proj2 (proj2 (proj2
      (compute_activity_embeds_repr script_config ["fn-a"; "fn-b"])))).
    + reflexivity.
    + repeat constructor.
  - pose proof (proj1 (proj2 (proj2
      (compute_activity_embeds_repr script_config ["it's"])))) as H.
    apply Forall_inv in H. apply (proj2 H); reflexivity.
Defined.

(** ** ResultRowParser *)

Lemma rows_loop_all_present (rows : list Row) (values : list string)
    (acc : gset string) :
  Forall2 (λ r v, target_cell r = Ok v) rows values →
  rows_loop rows acc = Ok (acc ∪ list_to_set values).
Proof.
  intros H. revert acc. induction H as [|r v rows values Hr _ IH]; intros acc.
  - cbn. f_equal. set_solver.
  - cbn. rewrite Hr, IH. f_equal. set_solver.
Qed.

Lemma rows_loop_first_error (good : list Row) (values : list string)
    (bad : Row) (rest : list Row) (e : Exn) (acc : gset string) :
  Forall2 (λ r v, target_cell r = Ok v) good values →
  target_cell bad = Err e →
  rows_loop (good ++ bad :: rest) acc = Err e.
Proof.
  intros H Hbad. revert acc.
  induction H as [|r v rows values Hr _ IH]; intros acc; cbn.
  - by rewrite Hbad.
  - by rewrite Hr, IH.
Qed.

(** C6, as stated, fails: a null target cell in the first data row makes
    the parser raise, and the value of the row after it is not returned. *)
Lemma null_cell_counterexample :
  get_set_of_function_arns_from_result_set
    [header; row [null_cell; cell "2018-06-01T00:00:00Z"];
     row [cell "fn-a"; cell "2018-06-02T00:00:00Z"]]
    = Err (KeyError "VarCharValue") ∧
  get_set_of_function_arns_from_result_set
    [header; row [null_cell; cell "2018-06-01T00:00:00Z"];
     row [cell "fn-a"; cell "2018-06-02T00:00:00Z"]]
    ≠ Ok {["fn-a"]}.
Proof. split; [reflexivity|discriminate]. Qed.

(** The exception of a row that lacks its target cell: [IndexError] when
    the row has no cell, [KeyError] for the key VarCharValue when its first
    cell has no value. *)
Lemma target_cell_missing (r : Row) :
  lacks_target_cell r → target_cell r = Err (missing_cell_error r).
Proof.
  unfold lacks_target_cell, target_cell, missing_cell_error.
  destruct (Data r) as [|c cells]; cbn; [done|]. by intros ->.
Qed.

Lemma target_cell_present (r : Row) (v : string) :
  target_cell r = Ok v → ¬ lacks_target_cell r.
Proof.
  intros Hv Hl. apply target_cell_missing in Hl. congruence.
Qed.

Lemma target_cell_error (r : Row) (e : Exn) :
  target_cell r = Err e → lacks_target_cell r ∧ e = missing_cell_error r.
Proof.
  unfold lacks_target_cell, target_cell, missing_cell_error.
  destruct (Data r) as [|c cells]; cbn; [by intros [= <-]|].
  destruct (VarCharValue c); [done|]. by intros [= <-].
Qed.

Lemma missing_cell_error_kinds (r : Row) :
  (Data r = [] ∧ missing_cell_error r = IndexError) ∨
  (Data r ≠ [] ∧ missing_cell_error r = KeyError "VarCharValue").
Proof. unfold missing_cell_error. destruct (Data r); [by left|by right]. Qed.

(** The loop over the rows stops at the first row that lacks its target
    cell, with the exception of that row. *)
Lemma rows_loop_first_lacking (rows : list Row) :
  Exists lacks_target_cell rows →
  ∃ good bad rest,
    rows = good ++ bad :: rest ∧
    Forall (λ r, ¬ lacks_target_cell r) good ∧
    lacks_target_cell bad ∧
    ∀ acc, rows_loop rows acc = Err (missing_cell_error bad).
Proof.
  induction rows as [|r rows IH]; intros H; [inversion H|].
  destruct (target_cell r) as [v|e] eqn:E.
  - apply Exists_cons in H as [H|H];
      [by destruct (target_cell_present r v E)|].
    destruct (IH H) as (good & bad & rest & -> & Hgood & Hbad & Hloop).
    exists (r :: good), bad, rest. split; [done|].
    split; [constructor; [by apply target_cell_present with v|done]|].
    split; [done|]. intros acc. cbn. by rewrite E, Hloop.
  - destruct (target_cell_error r e E) as [Hl ->].
    exists [], r, rows. split; [done|]. split; [constructor|].
    split; [done|]. intros acc. cbn. by rewrite E.
Qed.

(** C6, amended: when every data row has its target cell the parser
    returns the set of their values; a data row whose target cell is missing
    or null ends the parsing with the exception of the first such row,
    whatever follows it, and no set is returned.  The exception is
    [IndexError] for a row without cells and [KeyError] for the key
    VarCharValue for a first cell without value. *)
Theorem parser_stops_at_first_missing_cell (first : Row) (good : list Row)
    (values : list string) (bad : Row) (rest : list Row) :
  Forall2 (λ r v, target_cell r = Ok v) good values →
  lacks_target_cell bad →
  get_set_of_function_arns_from_result_set (first :: good)
    = Ok (list_to_set values) ∧
  target_cell bad = Err (missing_cell_error bad) ∧
  get_set_of_function_arns_from_result_set (first :: good ++ bad :: rest)
    = Err (missing_cell_error bad) ∧
  ((Data bad = [] ∧ missing_cell_error bad = IndexError) ∨
   (Data bad ≠ [] ∧ missing_cell_error bad = KeyError "VarCharValue")).
Proof.
  intros Hgood Hbad. unfold get_set_of_function_arns_from_result_set. cbn.
  split; [|split; [|split]].
  - rewrite (rows_loop_all_present good values) by done. f_equal. set_solver.
  - by apply target_cell_missing.
  - apply rows_loop_first_error with values; [done|].
    by apply target_cell_missing.
  - apply missing_cell_error_kinds.
Qed.

Lemma parser_stops_at_first_missing_cell_witness :
  get_set_of_function_arns_from_result_set [header; row [cell "fn-a"]]
    = Ok (list_to_set ["fn-a"]) ∧
  target_cell (row []) = Err IndexError ∧
  get_set_of_function_arns_from_result_set
    (header :: [row [cell "fn-a"]] ++ row [] :: [row [cell "fn-c"]])
    = Err IndexError ∧
  ((Data (row []) = [] ∧ missing_cell_error (row []) = IndexError) ∨
   (Data (row []) ≠ [] ∧
    missing_cell_error (row []) = KeyError "VarCharValue")).
Proof.
  apply (parser_stops_at_first_missing_cell header [row [cell "fn-a"]]
           ["fn-a"] (row []) [row [cell "fn-c"]]).
  - repeat constructor.
  - exact I.
Defined.

(** C8, as stated, fails: a result set without header row raises nothing.
    With no row at all the parser returns the empty set; with data rows only,
    the first of them is taken for the header and dropped. *)
Lemma missing_header_counterexample :
  get_set_of_function_arns_from_result_set [] = Ok ∅ ∧
  get_set_of_function_arns_from_result_set
    [row [cell "fn-a"; cell "2018-06-01T00:00:00Z"]] = Ok ∅ ∧
  ¬ ∃ e, get_set_of_function_arns_from_result_set [] = Err e.
Proof. split; [reflexivity|]. split; [reflexivity|]. by intros [e ?]. Qed.

(** C8, amended: a row after the first that lacks the target cell makes the
    parser raise, and no set is returned: it raises the exception of the
    first such row, [IndexError] if that row has no cell and [KeyError] for
    the key VarCharValue if its first cell has no value.  The first row is
    dropped without being looked at, so its absence is not noticed, and the
    result set without any row parses to the empty set. *)
Theorem malformed_result_surfaced_only_for_data_rows :
  (∀ first rows, Exists lacks_target_cell rows →
     ∃ good bad rest,
       rows = good ++ bad :: rest ∧
       Forall (λ r, ¬ lacks_target_cell r) good ∧
       lacks_target_cell bad ∧
       get_set_of_function_arns_from_result_set (first :: rows)
         = Err (missing_cell_error bad) ∧
       ((Data bad = [] ∧ missing_cell_error bad = IndexError) ∨
        (Data bad ≠ [] ∧
         missing_cell_error bad = KeyError "VarCharValue"))) ∧
  (∀ first first' rows,
     get_set_of_function_arns_from_result_set (first :: rows)
       = get_set_of_function_arns_from_result_set (first' :: rows)) ∧
  get_set_of_function_arns_from_result_set [] = Ok ∅.
Proof.
  split; [|split]; [|done..].
  intros first rows H.
  destruct (rows_loop_first_lacking rows H)
    as (good & bad & rest & -> & Hgood & Hbad & Hloop).
  exists good, bad, rest. split; [done|]. split; [done|]. split; [done|].
  split; [apply Hloop|apply missing_cell_error_kinds].
Qed.

Lemma malformed_result_surfaced_only_for_data_rows_witness :
  ∃ good bad rest,
    [row [cell "fn-a"]; row []; row [null_cell]] = good ++ bad :: rest ∧
    Forall (λ r, ¬ lacks_target_cell r) good ∧
    lacks_target_cell bad ∧
    get_set_of_function_arns_from_result_set
      (header :: [row [cell "fn-a"]; row []; row [null_cell]])
      = Err (missing_cell_error bad) ∧
    ((Data bad = [] ∧ missing_cell_error bad = IndexError) ∨
     (Data bad ≠ [] ∧ missing_cell_error bad = KeyError "VarCharValue")).
Proof.
  apply (proj1 malformed_result_surfaced_only_for_data_rows).
  apply Exists_cons_tl, Exists_cons_hd. exact I.
Defined.

(** ** Reconciliation *)

Lemma elem_of_difference_set (x : string) (function_arns : list string)
    (used : gset string) :
  x ∈ difference_set function_arns used ↔ x ∈ function_arns ∧ x ∉ used.
Proof. unfold difference_set. set_solver. Qed.

(** The list made of the difference lists its members, each once, in the
    order of the run. *)
Lemma difference_list_perm (set_order : SetOrder) (function_arns : list string)
    (used : gset string) :
  difference_list set_order function_arns used
  ≡ₚ elements (difference_set function_arns used).
Proof. apply list_of_difference_perm. Qed.

(** C2: the reconciliation yields exactly the members of the inventory that
    are not in the active set; inventories with the same members and active
    sets with the same members, in whatever order and however often
    repeated, give the same set, and the lists made of it, in whatever order
    the runs list a set, have the same entries, each once; the empty
    inventory gives the empty set, and so does an inventory contained in the
    active set. *)
Theorem reconcile_is_set_difference (set_order set_order' : SetOrder)
    (I I' A A' : list string) :
  (∀ x, x ∈ I ↔ x ∈ I') → (∀ x, x ∈ A ↔ x ∈ A') →
  (∀ x, x ∈ difference_set I (list_to_set A) ↔ x ∈ I ∧ x ∉ A) ∧
  (∀ x, x ∈ difference_list set_order I (list_to_set A) ↔ x ∈ I ∧ x ∉ A) ∧
  NoDup (difference_list set_order I (list_to_set A)) ∧
  difference_set I (list_to_set A) = difference_set I' (list_to_set A') ∧
  difference_list set_order I (list_to_set A)
    ≡ₚ difference_list set_order' I' (list_to_set A') ∧
  difference_set [] (list_to_set A) = ∅ ∧
  ((∀ x, x ∈ I → x ∈ A) → difference_set I (list_to_set A) = ∅).
Proof.
  intros HI HA.
  assert (difference_set I (list_to_set A)
            = difference_set I' (list_to_set A')) as Heq.
  { apply set_eq. intros x. rewrite !elem_of_difference_set.
    rewrite !elem_of_list_to_set. by rewrite HI, HA. }
  split; [|split; [|split; [|split; [|split; [|split]]]]].
  - intros x. rewrite elem_of_difference_set. set_solver.
  - intros x. rewrite difference_list_perm.
    rewrite elem_of_elements, elem_of_difference_set. set_solver.
  - rewrite difference_list_perm. apply NoDup_elements.
  - exact Heq.
  - rewrite !difference_list_perm. by rewrite Heq.
  - apply set_eq. intros x. rewrite elem_of_difference_set. set_solver.
  - intros Hsub. apply set_eq. intros x. rewrite elem_of_difference_set.
    set_solver.
Qed.

Lemma reconcile_is_set_difference_witness :
  difference_list canonical_order ["fn-a"; "fn-b"; "fn-c"; "fn-d"]
    (list_to_set ["fn-a"; "fn-c"])
  ≡ₚ difference_list reversed_order ["fn-d"; "fn-c"; "fn-b"; "fn-a"; "fn-b"]
       (list_to_set ["fn-c"; "fn-a"; "fn-c"]) ∧
  (∀ x, x ∈ difference_list canonical_order ["fn-a"; "fn-b"; "fn-c"; "fn-d"]
              (list_to_set ["fn-a"; "fn-c"])
        ↔ x ∈ ["fn-a"; "fn-b"; "fn-c"; "fn-d"] ∧ x ∉ ["fn-a"; "fn-c"]).
Proof.
  assert (∀ x : string, x ∈ ["fn-a"; "fn-b"; "fn-c"; "fn-d"]
                        ↔ x ∈ ["fn-d"; "fn-c"; "fn-b"; "fn-a"; "fn-b"]) as HI
    by set_solver.
  assert (∀ x : string, x ∈ ["fn-a"; "fn-c"] ↔ x ∈ ["fn-c"; "fn-a"; "fn-c"])
    as HA by set_solver.
  destruct (reconcile_is_set_difference canonical_order reversed_order
              _ _ _ _ HI HA) as (_ & Hmem & _ & _ & Hlist & _).
  split; [exact Hlist | exact Hmem].
Defined.

(** The scenario of the specification: inventory fn-a, fn-b, fn-c, active
    fn-a and fn-c, stale fn-b, whatever the order of the run. *)
Example difference_scenario (set_order : SetOrder) :
  difference_list set_order ["fn-a"; "fn-b"; "fn-c"]
    (list_to_set ["fn-a"; "fn-c"]) = ["fn-b"].
Proof.
  apply Permutation_singleton_r. rewrite difference_list_perm. by vm_compute.
Qed.

(** Two runs may list the same set differently. *)
Example orders_differ :
  difference_list canonical_order ["fn-a"; "fn-b"; "fn-c"] ∅
  ≠ difference_list reversed_order ["fn-a"; "fn-b"; "fn-c"] ∅.
Proof. by vm_compute. Qed.

(** ** AsyncQueryExecutor *)

Section Executor.

Context {S : Type}.
Variable athena_client : AthenaClient S.
Variable cfg : Config.


(** One round of the loop: the status call, then either the early return
    or the next round. *)
Lemma run_query_while_step (fuel : nat) (id : string) (st : option string)
    (w : World S) :
  st ≠ Some "SUCCEEDED" →
  run_query_while athena_client (Datatypes.S fuel) id st w =
    let '(a, s) :=
      get_query_execution athena_client (Py.lstrip "ID" id) (service w) in
    if decide (a = "FAILED") then
      (Returned ReturnNone,
       Build_World s
         (calls w ++ [GetQueryExecution (Py.lstrip "ID" id) a])
         (stdout w ++ ["The query failed. Check the Athena history for details."])
         (slept w))
    else
      run_query_while athena_client fuel id (Some a)
        (Build_World s
           (calls w ++ [GetQueryExecution (Py.lstrip "ID" id) a])
           (stdout w ++ ["Running"]) (slept w + 5)).
Proof.
  intros Hst. cbn [run_query_while].
  destruct (decide (st = Some "SUCCEEDED")) as [|_]; [done|].
  unfold bind at 1, call_get_query_execution.
  destruct (get_query_execution _ _ _) as [a s].
  destruct (decide (a = "FAILED")); reflexivity.
Qed.

Lemma run_query_while_succeeded (fuel : nat) (id : string) (w : World S) :
  run_query_while athena_client fuel id (Some "SUCCEEDED") w = (Returned ConditionFalse, w).
Proof. destruct fuel; reflexivity. Qed.

Lemma run_query_while_no_fuel (id : string) (st : option string)
    (w : World S) :
  st ≠ Some "SUCCEEDED" → run_query_while athena_client 0 id st w = (OutOfFuel, w).
Proof.
  intros Hst. cbn. by destruct (decide (st = Some "SUCCEEDED")).
Qed.

(** The loop never raises, and its status calls are: states on which it
    goes round again, then the state that ends it. *)
Lemma run_query_while_shape (fuel : nat) (id : string) (st : option string)
    (w : World S) :
  st ≠ Some "SUCCEEDED" →
  ∃ states,
    Forall keeps_polling states ∧
    (∀ e, (run_query_while athena_client fuel id st w).1 ≠ Raised e) ∧
    calls (run_query_while athena_client fuel id st w).2
      = calls w ++ polls id (states ++ last_state (run_query_while athena_client fuel id st w).1).
Proof.
  revert st w. induction fuel as [|fuel IH]; intros st w Hst.
  - rewrite run_query_while_no_fuel by done. exists []. cbn.
    split; [constructor|]. split; [done|]. by rewrite app_nil_r.
  - rewrite run_query_while_step by done.
    destruct (get_query_execution _ _ _) as [a s].
    destruct (decide (a = "FAILED")) as [->|Hf].
    + exists []. cbn. split; [constructor|]. done.
    + destruct (decide (a = "SUCCEEDED")) as [->|Hs].
      * rewrite run_query_while_succeeded. exists []. cbn.
        split; [constructor|]. done.
      * match goal with
        | |- context [run_query_while athena_client fuel id (Some a) ?w0] => set (w1 := w0)
        end.
        destruct (IH (Some a) w1) as (states & Hk & Hr & Hc); [congruence|].
        exists (a :: states). split; [by constructor|]. split; [done|].
        rewrite Hc. unfold w1. cbn. by rewrite <- app_assoc.
Qed.

Lemma run_query_unfold (fuel : nat) (query : string) (w : World S) :
  run_query athena_client cfg fuel query w =
    let '(id, s) :=
      start_query_execution athena_client query "default"
        (ATHENA_S3_BUCKET_NAME cfg) (service w) in
    match run_query_while athena_client fuel id None
            (Build_World s (calls w ++ [StartQueryExecution query id])
               (stdout w ++ ["Query Execution ID: " +:+ id]) (slept w)) with
    | (Returned ConditionFalse, w2) =>
        let '(results, s') :=
          get_query_results athena_client id None (service w2) in
        (Returned (Some results),
         Build_World s' (calls w2 ++ [GetQueryResults id None])
           (stdout w2) (slept w2))
    | (Returned ReturnNone, w2) => (Returned None, w2)
    | (Raised e, w2) => (Raised e, w2)
    | (OutOfFuel, w2) => (OutOfFuel, w2)
    end.
Proof.
  unfold run_query, bind, call_start_query_execution, print.
  destruct (start_query_execution _ _ _ _ _) as [id s].
  destruct (run_query_while _ _ _ _ _) as [[[]| |] w2]; try reflexivity.
  unfold call_get_query_results.
  by destruct (get_query_results _ _ _ _).
Qed.

(** The calls of one [run_query]: the submission, the status calls up to
    the state that ends the loop, and after SUCCEEDED one call for the
    results.  [run_query] raises nothing. *)
Lemma run_query_shape (fuel : nat) (query : string) (w : World S) :
  ∃ log,
    calls (run_query athena_client cfg fuel query w).2 = calls w ++ log ∧
    run_query_calls query (run_query athena_client cfg fuel query w).1 log.
Proof.
  rewrite run_query_unfold.
  destruct (start_query_execution _ _ _ _ _) as [id s].
  match goal with
  | |- context [run_query_while athena_client fuel id None ?w0] =>
      destruct (run_query_while_shape fuel id None w0)
        as (states & Hk & Hr & Hc); [done|];
      destruct (run_query_while athena_client fuel id None w0)
        as [[[]|e|] w2]
  end; cbn in Hc, Hr |- *.
  - destruct (get_query_results _ _ _ _) as [results s']. cbn.
    eexists. split; [|by apply calls_succeeded].
    rewrite Hc. by rewrite <- !app_assoc.
  - eexists. split; [|by apply calls_failed].
    rewrite Hc. by rewrite <- !app_assoc.
  - by destruct (Hr e).
  - eexists. split; [|by apply calls_out_of_fuel].
    rewrite Hc, app_nil_r. by rewrite <- !app_assoc.
Qed.

Lemma nth_state_succ (id : string) (j : nat) (s : S) :
  nth_state athena_client id (Datatypes.S j) s
    = nth_state athena_client id j (get_query_execution athena_client id s).2.
Proof. reflexivity. Qed.

Lemma after_polls_succ (id : string) (n : nat) (s : S) :
  after_polls athena_client id (Datatypes.S n) s
    = after_polls athena_client id n (get_query_execution athena_client id s).2.
Proof. reflexivity. Qed.

Lemma first_states_succ (id : string) (n : nat) (s : S) :
  first_states athena_client id (Datatypes.S n) s
    = (get_query_execution athena_client id s).1
      :: first_states athena_client id n (get_query_execution athena_client id s).2.
Proof.
  unfold first_states. cbn [seq map]. f_equal.
  rewrite <- seq_shift, map_map. reflexivity.
Qed.

(** The loop on an execution that the service reports SUCCEEDED at its
    status call number [k], and neither SUCCEEDED nor FAILED before: the loop
    is left by its condition after those [k + 1] status calls. *)
Lemma run_query_while_reaches_succeeded (k : nat) :
  ∀ fuel id st w,
    st ≠ Some "SUCCEEDED" →
    (∀ j, (j < k)%nat →
          keeps_polling (nth_state athena_client (Py.lstrip "ID" id) j (service w))) →
    nth_state athena_client (Py.lstrip "ID" id) k (service w) = "SUCCEEDED" →
    (k < fuel)%nat →
    ∃ w',
      run_query_while athena_client fuel id st w = (Returned ConditionFalse, w') ∧
      service w'
        = after_polls athena_client (Py.lstrip "ID" id) (Datatypes.S k) (service w) ∧
      calls w'
        = calls w ++
          polls id (first_states athena_client (Py.lstrip "ID" id)
                      (Datatypes.S k) (service w)).
Proof.
  induction k as [|k IH]; intros fuel id st w Hst Hkeep Hk Hlt;
    (destruct fuel as [|fuel]; [lia|]);
    rewrite run_query_while_step by done;
    rewrite first_states_succ, after_polls_succ.
  - unfold nth_state in Hk. cbn [after_polls] in Hk.
    destruct (get_query_execution _ _ _) as [a s]. cbn [fst snd] in *.
    subst a. rewrite decide_False by done.
    rewrite run_query_while_succeeded. eexists. split; [reflexivity|].
    by cbn.
  - pose proof (Hkeep 0%nat ltac:(lia)) as [Hs Hf].
    unfold nth_state in Hs, Hf. cbn [after_polls] in Hs, Hf.
    rewrite nth_state_succ in Hk.
    assert (∀ j, (j < k)%nat →
              keeps_polling
                (nth_state athena_client (Py.lstrip "ID" id) j
                   (get_query_execution athena_client (Py.lstrip "ID" id)
                      (service w)).2)) as Hkeep'.
    { intros j Hj. rewrite <- nth_state_succ. apply Hkeep. lia. }
    destruct (get_query_execution _ _ _) as [a s]. cbn [fst snd] in *.
    rewrite decide_False by done.
    match goal with
    | |- context [run_query_while athena_client fuel id (Some a) ?w0] =>
        destruct (IH fuel id (Some a) w0) as (w' & -> & Hsv & Hc);
        [congruence | exact Hkeep' | exact Hk | lia |]
    end.
    eexists. split; [reflexivity|]. split; [exact Hsv|].
    rewrite Hc. cbn. by rewrite <- app_assoc.
Qed.

(** C4, amended: on a SUCCEEDED execution (one whose status call number [k]
    is answered SUCCEEDED, those before it neither SUCCEEDED nor FAILED)
    [run_query] makes exactly one call for results, after those status
    calls, for the first page (no token) of the execution it submitted, and
    returns the answer as it comes, the token of a next page included; no
    further page is asked for. *)
Theorem run_query_fetches_first_page_only (k fuel : nat) (query : string)
    (w : World S) :
  let started :=
    start_query_execution athena_client query "default"
      (ATHENA_S3_BUCKET_NAME cfg) (service w) in
  let id := started.1 in
  let polled := Py.lstrip "ID" id in
  let answer :=
    get_query_results athena_client id None
      (after_polls athena_client polled (Datatypes.S k) started.2) in
  (∀ j, (j < k)%nat →
        keeps_polling (nth_state athena_client polled j started.2)) →
  nth_state athena_client polled k started.2 = "SUCCEEDED" →
  (k < fuel)%nat →
  ∃ w',
    run_query athena_client cfg fuel query w = (Returned (Some answer.1), w') ∧
    service w' = answer.2 ∧
    calls w'
      = calls w ++
        (StartQueryExecution query id
           :: polls id (first_states athena_client polled (Datatypes.S k)
                          started.2))
        ++ [GetQueryResults id None] ∧
    Forall (λ c, is_fetch c = false)
      (StartQueryExecution query id
         :: polls id (first_states athena_client polled (Datatypes.S k)
                        started.2)).
Proof.
  cbv zeta. intros Hkeep Hk Hlt. rewrite run_query_unfold.
  destruct (start_query_execution _ _ _ _ _) as [id s]. cbn [fst snd] in *.
  match goal with
  | |- context [run_query_while athena_client fuel id None ?w0] =>
      destruct (run_query_while_reaches_succeeded k fuel id None w0)
        as (w2 & -> & Hsv & Hc); [done | exact Hkeep | exact Hk | done |]
  end.
  cbn [service calls] in Hsv, Hc. rewrite Hsv.
  destruct (get_query_results _ _ _ _) as [results s'].
  eexists. split; [reflexivity|]. cbn [fst snd service calls].
  split; [done|]. split.
  - rewrite Hc. by rewrite <- !app_assoc.
  - constructor; [done|]. unfold polls. apply Forall_map.
    by apply Forall_forall.
Qed.

(** As long as the service answers states that are neither SUCCEEDED nor
    FAILED, the loop goes on: it uses up whatever fuel it is given, one
    status call per unit. *)
Lemma run_query_while_never_ends (P : S → Prop) :
  (∀ id s, P s →
     keeps_polling (get_query_execution athena_client id s).1 ∧
     P (get_query_execution athena_client id s).2) →
  ∀ fuel id st w,
    st ≠ Some "SUCCEEDED" → P (service w) →
    (run_query_while athena_client fuel id st w).1 = OutOfFuel ∧
    P (service (run_query_while athena_client fuel id st w).2) ∧
    length (calls (run_query_while athena_client fuel id st w).2)
      = (length (calls w) + fuel)%nat.
Proof.
  intros HP. induction fuel as [|fuel IH]; intros id st w Hst Hw.
  - rewrite run_query_while_no_fuel by done. cbn. split; [done|].
    split; [done|]. lia.
  - rewrite run_query_while_step by done.
    destruct (HP (Py.lstrip "ID" id) (service w) Hw) as [[Hs Hf] Hw'].
    destruct (get_query_execution _ _ _) as [a s]. cbn [fst snd] in *.
    destruct (decide (a = "FAILED")); [done|].
    match goal with
    | |- context [run_query_while athena_client fuel id (Some a) ?w0] =>
        destruct (IH id (Some a) w0) as (Ho & HP' & Hl);
        [congruence | done |]
    end.
    split; [done|]. split; [done|]. rewrite Hl. cbn. rewrite length_app. cbn. lia.
Qed.

Lemma run_query_never_ends (P : S → Prop) :
  (∀ id s, P s →
     keeps_polling (get_query_execution athena_client id s).1 ∧
     P (get_query_execution athena_client id s).2) →
  (∀ q d o s, P s → P (start_query_execution athena_client q d o s).2) →
  ∀ fuel query w,
    P (service w) →
    (run_query athena_client cfg fuel query w).1 = OutOfFuel ∧
    length (calls (run_query athena_client cfg fuel query w).2)
      = (length (calls w) + 1 + fuel)%nat.
Proof.
  intros HP Hstart fuel query w Hw. rewrite run_query_unfold.
  specialize (Hstart query "default" (ATHENA_S3_BUCKET_NAME cfg) (service w) Hw).
  destruct (start_query_execution _ _ _ _ _) as [id s]. cbn [snd] in Hstart.
  match goal with
  | |- context [run_query_while athena_client fuel id None ?w0] =>
      destruct (run_query_while_never_ends P HP fuel id None w0)
        as (Ho & _ & Hl); [done | done |];
      destruct (run_query_while athena_client fuel id None w0) as [o w2]
  end.
  cbn [fst snd] in *. subst o. cbn [fst snd]. split; [done|].
  rewrite Hl. cbn. rewrite length_app. cbn. lia.
Qed.

(** If some status call reports SUCCEEDED or FAILED, the loop comes to its
    end with fuel for that many rounds. *)
Lemma run_query_while_ends (k : nat) :
  ∀ fuel id st w,
    st ≠ Some "SUCCEEDED" →
    nth_state athena_client (Py.lstrip "ID" id) k (service w) = "SUCCEEDED" ∨
    nth_state athena_client (Py.lstrip "ID" id) k (service w) = "FAILED" →
    (k < fuel)%nat →
    ∃ exit w', run_query_while athena_client fuel id st w = (Returned exit, w').
Proof.
  induction k as [|k IH]; intros [|fuel] id st w Hst Hk Hlt; try lia;
    rewrite run_query_while_step by done;
    unfold nth_state in Hk; cbn [after_polls] in Hk;
    destruct (get_query_execution athena_client (Py.lstrip "ID" id) (service w))
      as [a s] eqn:E; cbn [fst snd] in Hk;
    (destruct (decide (a = "FAILED")); [by eauto|]);
    (destruct (decide (a = "SUCCEEDED")) as [->|];
       [rewrite run_query_while_succeeded; by eauto|]).
  - by destruct Hk.
  - apply IH; [congruence | exact Hk | lia].
Qed.

Lemma run_query_ends (k fuel : nat) (query : string) (w : World S) :
  let started :=
    start_query_execution athena_client query "default"
      (ATHENA_S3_BUCKET_NAME cfg) (service w) in
  nth_state athena_client (Py.lstrip "ID" started.1) k started.2 = "SUCCEEDED" ∨
  nth_state athena_client (Py.lstrip "ID" started.1) k started.2 = "FAILED" →
  (k < fuel)%nat →
  ∃ r w', run_query athena_client cfg fuel query w = (Returned r, w').
Proof.
  cbv zeta. intros Hk Hlt. rewrite run_query_unfold.
  destruct (start_query_execution _ _ _ _ _) as [id s]. cbn [fst snd] in Hk.
  match goal with
  | |- context [run_query_while athena_client fuel id None ?w0] =>
      destruct (run_query_while_ends k fuel id None w0)
        as (exit & w2 & ->); [done | exact Hk | done |]
  end.
  destruct exit; [|by eauto].
  destruct (get_query_results _ _ _ _). by eauto.
Qed.

End Executor.

(** ** The orchestration in [main] *)

Section Orchestration.

Context {S : Type}.
Variable athena_client : AthenaClient S.
Variable cfg : Config.
Variable set_order : SetOrder.




Lemma mapM_nil {A B} (f : A → M S B) (w : World S) :
  mapM f [] w = (Returned [], w).
Proof. reflexivity. Qed.

Lemma mapM_cons {A B} (f : A → M S B) (x : A) (l : list A) (w : World S) :
  mapM f (x :: l) w =
    match f x w with
    | (Returned y, w1) =>
        match mapM f l w1 with
        | (Returned ys, w2) => (Returned (y :: ys), w2)
        | (Raised e, w2) => (Raised e, w2)
        | (OutOfFuel, w2) => (OutOfFuel, w2)
        end
    | (Raised e, w1) => (Raised e, w1)
    | (OutOfFuel, w1) => (OutOfFuel, w1)
    end.
Proof.
  cbn. unfold bind. destruct (f x w) as [[y|e|] w1]; [|done|done].
  unfold ret. by destruct (mapM f l w1) as [[ys|e|] w2].
Qed.

Lemma mapM_three {A B} (f : A → M S B) (q1 q2 q3 : A) (w w3 : World S)
    (rs : list B) :
  mapM f [q1; q2; q3] w = (Returned rs, w3) →
  ∃ r1 r2 r3 w1 w2,
    f q1 w = (Returned r1, w1) ∧ f q2 w1 = (Returned r2, w2) ∧
    f q3 w2 = (Returned r3, w3) ∧ rs = [r1; r2; r3].
Proof.
  rewrite mapM_cons. destruct (f q1 w) as [[r1|?|] w1] eqn:E1; [|done..].
  rewrite mapM_cons. destruct (f q2 w1) as [[r2|?|] w2] eqn:E2; [|done..].
  rewrite mapM_cons. destruct (f q3 w2) as [[r3|?|] w3'] eqn:E3;
    [|intros [=]..].
  rewrite mapM_nil. intros [= <- <-]. by exists r1, r2, r3, w1, w2.
Qed.


Lemma run_query_cases (fuel : nat) (query : string) (w : World S) :
  ∃ log, calls (run_query athena_client cfg fuel query w).2 = calls w ++ log ∧
    ((∃ r, (run_query athena_client cfg fuel query w).1 = Returned r ∧
           completed query log) ∨
     ((run_query athena_client cfg fuel query w).1 = OutOfFuel ∧
      still_polling query log)).
Proof.
  destruct (run_query_shape athena_client cfg fuel query w) as (log & Hc & Hs).
  exists log. split; [done|].
  destruct (run_query athena_client cfg fuel query w).1 as [r|e|] eqn:E.
  - left. exists r. split; [done|]. by exists r.
  - inversion Hs.
  - by right.
Qed.

(** The loop over the three statements: a statement is submitted when the
    [run_query] of the one before has come back, whether with results
    (SUCCEEDED) or without (FAILED). *)
Lemma three_queries_shape (fuel : nat) (q1 q2 q3 : string) (w : World S) :
  let r := mapM (run_query athena_client cfg fuel) [q1; q2; q3] w in
  ∃ log, calls r.2 = calls w ++ log ∧
    main_calls q1 q2 q3 (negb (out_of_fuel r.1)) log ∧
    match r.1 with
    | Returned query_results => ∃ r1 r2 r3, query_results = [r1; r2; r3]
    | Raised _ => False
    | OutOfFuel => True
    end.
Proof.
  cbv zeta. rewrite mapM_cons.
  destruct (run_query_cases fuel q1 w) as (l1 & Hc1 & [(r1 & E1 & H1)|[E1 H1]]);
    destruct (run_query athena_client cfg fuel q1 w) as [o1 w1];
    cbn [fst snd] in *; subst o1.
  2: { exists l1. cbn [fst snd]. split; [done|]. split; [|done].
       by apply main_in_first. }
  rewrite mapM_cons.
  destruct (run_query_cases fuel q2 w1) as (l2 & Hc2 & [(r2 & E2 & H2)|[E2 H2]]);
    destruct (run_query athena_client cfg fuel q2 w1) as [o2 w2];
    cbn [fst snd] in *; subst o2.
  2: { exists (l1 ++ l2). cbn [fst snd]. rewrite Hc2, Hc1, <- app_assoc.
       split; [done|]. split; [|done]. by apply main_in_second. }
  rewrite mapM_cons.
  destruct (run_query_cases fuel q3 w2) as (l3 & Hc3 & [(r3 & E3 & H3)|[E3 H3]]);
    destruct (run_query athena_client cfg fuel q3 w2) as [o3 w3];
    cbn [fst snd] in *; subst o3.
  2: { exists (l1 ++ l2 ++ l3). cbn [fst snd].
       rewrite Hc3, Hc2, Hc1, <- !app_assoc.
       split; [done|]. split; [|done]. by apply main_in_third. }
  rewrite mapM_nil. cbn. exists (l1 ++ l2 ++ l3).
  rewrite Hc3, Hc2, Hc1, <- !app_assoc.
  split; [done|]. split; [by apply main_all|]. by exists r1, r2, r3.
Qed.

Lemma submitted_app (l1 l2 : list Call) :
  submitted (l1 ++ l2) = submitted l1 ++ submitted l2.
Proof. unfold submitted. apply omap_app. Qed.

Lemma submitted_polls (id : string) (states : list string) :
  submitted (polls id states) = [].
Proof. induction states as [|a states IH]; [done|]. exact IH. Qed.

Lemma submitted_run_query (query : string) (o : Outcome (option QueryResults))
    (log : list Call) :
  run_query_calls query o log → submitted log = [query].
Proof.
  intros H. destruct H; cbn; f_equal;
    rewrite ?submitted_app, submitted_polls; done.
Qed.



End Orchestration.

(** ** Runs against the scripted service *)

Example end_to_end_scenario :
  let run := main all_succeed script_config canonical_order 5 inventory_abc
               (initial_world mock0) in
  run.1 = Returned {["fn-b"]} ∧
  submitted (calls run.2) = statements script_config inventory_abc.
Proof. by vm_compute. Qed.



(** The failure scenario of the specification: [add_partition] FAILED.  The
    third statement is still submitted and the run yields a stale set. *)
Example failed_add_partition_scenario :
  let run :=
    main (mock_athena numbered_ids
            (scripted ["SUCCEEDED"; "FAILED"; "SUCCEEDED"] "SUCCEEDED")
            [active_a_c])
      script_config canonical_order 5 inventory_abc (initial_world mock0) in
  run.1 = Returned {["fn-b"]} ∧
  submitted (calls run.2) = statements script_config inventory_abc.
Proof. by vm_compute. Qed.

(** When it is the last statement that FAILED, [main] trips on the missing
    result. *)
Example failed_compute_activity_scenario :
  (main (mock_athena numbered_ids
           (scripted ["SUCCEEDED"; "SUCCEEDED"; "FAILED"] "SUCCEEDED")
           [active_a_c])
     script_config canonical_order 5 inventory_abc (initial_world mock0)).1
  = Raised TypeError.
Proof. by vm_compute. Qed.

Lemma non_start_polls (id : string) (states : list string) :
  filter (λ c, is_start c = false) (polls id states) = polls id states.
Proof.
  induction states as [|a states IH]; [done|].
  unfold polls in *. cbn [map]. rewrite filter_cons_True by done.
  by rewrite IH.
Qed.

(** C3: an execution reported CANCELLED is polled for ever.  Whatever the
    fuel, [run_query] has not come back when it is used up, having made one
    status call per unit of it. *)
Theorem cancelled_execution_polled_forever (ids : nat → string)
    (running : list string) (pages : list (list Row)) (cfg : Config)
    (query : string) (fuel : nat) :
  Forall keeps_polling running →
  let run := run_query (cancelled_after ids running pages) cfg fuel query
               (initial_world mock0) in
  run.1 = OutOfFuel ∧
  length (filter (λ c, is_start c = false) (calls run.2)) = fuel ∧
  ∀ k, (length running ≤ k)%nat →
       nth_state (cancelled_after ids running pages) (Py.lstrip "ID" (ids 0%nat))
         k (service (initial_world mock0)) = "CANCELLED".
Proof.
  intros Hrun. cbv zeta.
  assert (∀ n, keeps_polling (scripted running "CANCELLED" n)) as Hk.
  { intros n. unfold scripted. destruct (running !! n) as [a|] eqn:E; cbn.
    - eapply Forall_forall; [exact Hrun|]. by eapply list_elem_of_lookup_2.
    - by split. }
  destruct (run_query_never_ends (cancelled_after ids running pages) cfg
              (λ _, True)) with (fuel := fuel) (query := query)
              (w := initial_world mock0) as [Ho Hl]; try done.
  { intros id s _. split; [apply Hk | done]. }
  split; [exact Ho|]. split.
  - destruct (run_query_shape (cancelled_after ids running pages) cfg fuel
                query (initial_world mock0)) as (log & Hc & Hs).
    rewrite Ho in Hs. rewrite Hc in Hl |- *.
    inversion Hs as [| |id states Hst]; subst.
    change (calls (initial_world mock0)) with (@nil Call) in *.
    rewrite app_nil_l in *. rewrite filter_cons_False by (cbn; congruence).
    rewrite non_start_polls. cbn [length] in Hl. lia.
  - intros k Hle. unfold nth_state. cbn.
    assert (∀ n m, status_calls
                     (after_polls (cancelled_after ids running pages)
                        (Py.lstrip "ID" (ids 0%nat)) n m)
                   = (status_calls m + n)%nat) as Hn.
    { induction n as [|n IH]; intros m; cbn; [lia|]. rewrite IH. cbn. lia. }
    rewrite Hn. cbn. unfold scripted.
    by rewrite lookup_ge_None_2.
Qed.

Lemma cancelled_execution_polled_forever_witness :
  (run_query (cancelled_after numbered_ids ["RUNNING"; "RUNNING"] [active_a_c])
     script_config 1000 "select 1" (initial_world mock0)).1 = OutOfFuel.
Proof.
  apply (cancelled_execution_polled_forever numbered_ids ["RUNNING"; "RUNNING"]
           [active_a_c] script_config "select 1" 1000).
  repeat constructor; discriminate.
Defined.

(** C4, as stated, fails: with the result on two pages [run_query] returns
    the first page alone, its token unused; the row of fn-c, on the second
    page, is not in what the caller gets, and [main] reports fn-c as stale. *)
Lemma second_page_counterexample :
  let run := run_query two_pages script_config 5 "select 1"
               (initial_world mock0) in
  run.1 = Returned (Some {| Rows := page_1; NextToken := Some "1" |}) ∧
  spec_full_result_set two_pages 5 "query-0" None (service run.2)
    = page_1 ++ page_2 ∧
  page_1 ≠ page_1 ++ page_2 ∧
  (main two_pages script_config canonical_order 5 (lambda_of ["fn-a"; "fn-c"])
     (initial_world mock0)).1 = Returned {["fn-c"]}.
Proof.
  cbv zeta. split; [by vm_compute|]. split; [by vm_compute|].
  split; [discriminate|]. by vm_compute.
Qed.

Lemma run_query_fetches_first_page_only_witness :
  ∃ w',
    run_query two_pages script_config 5 "select 1" (initial_world mock0)
      = (Returned (Some {| Rows := page_1; NextToken := Some "1" |}), w') ∧
    service w' = {| submissions := 1; status_calls := 1 |} ∧
    calls w'
      = [StartQueryExecution "select 1" "query-0";
         GetQueryExecution "query-0" "SUCCEEDED";
         GetQueryResults "query-0" None].
Proof.
  destruct (run_query_fetches_first_page_only two_pages script_config 0 5
              "select 1" (initial_world mock0))
    as (w' & Hrun & Hsv & Hc & _).
  - intros j Hj. lia.
  - reflexivity.
  - lia.
  - exists w'. split; [exact Hrun|]. split; [exact Hsv|exact Hc].
Defined.

(** ** The execution identifier *)

Lemma lstrip_length (chars s : string) :
  (String.length (Py.lstrip chars s) ≤ String.length s)%nat.
Proof.
  induction s as [|c s IH]; cbn [Py.lstrip]; [done|].
  destruct (Py.contains c chars); cbn [String.length]; lia.
Qed.

Lemma lstrip_stripped (chars : string) (c : ascii) (s : string) :
  Py.contains c chars = true → Py.lstrip chars (String c s) ≠ String c s.
Proof.
  intros Hc H. cbn [Py.lstrip] in H. rewrite Hc in H.
  pose proof (lstrip_length chars s) as Hle. rewrite H in Hle.
  cbn [String.length] in Hle. lia.
Qed.

(** The identifier comes through [lstrip('ID')] unchanged exactly when it
    does not begin with I or D. *)
Lemma lstrip_verbatim (id : string) :
  Py.lstrip "ID" id = id ↔
  match id with
  | EmptyString => True
  | String c _ => c ≠ "I"%char ∧ c ≠ "D"%char
  end.
Proof.
  destruct id as [|c id]; [done|].
  destruct (Py.contains c "ID") eqn:Hc.
  - split.
    + intros H. by apply lstrip_stripped in H.
    + intros [HI HD]. cbn in Hc.
      destruct (Ascii.eqb_spec c "I"); [done|].
      destruct (Ascii.eqb_spec c "D"); done.
  - cbn [Py.lstrip]. rewrite Hc. split; [|done]. intros _.
    split; intros ->; discriminate.
Qed.

(** C5: on an identifier that begins with D the status call is made with
    another identifier than the one returned at submission (the leading D
    is gone), while the call for the results is made with the identifier as
    it was returned. *)
Theorem status_call_identifier_stripped :
  let run := run_query upper_case_ids script_config 5 "select 1"
               (initial_world mock0) in
  calls run.2 =
    [StartQueryExecution "select 1" "D0E1F2A3-7B6C-4D5E-8F90-123456789ABC";
     GetQueryExecution "0E1F2A3-7B6C-4D5E-8F90-123456789ABC" "SUCCEEDED";
     GetQueryResults "D0E1F2A3-7B6C-4D5E-8F90-123456789ABC" None] ∧
  Py.lstrip "ID" upper_case_id ≠ upper_case_id.
Proof. split; [by vm_compute|]. vm_compute. discriminate. Qed.

(** * Further properties *)

(** ** [lstrip] *)

Lemma lstrip_split (chars s : string) :
  ∃ removed, s = removed +:+ Py.lstrip chars s ∧ all_in chars removed = true.
Proof.
  induction s as [|c s (removed & Hs & Hr)]; [by exists EmptyString|].
  cbn [Py.lstrip]. destruct (Py.contains c chars) eqn:Hc.
  - exists (String c removed). rewrite append_cons, <- Hs. split; [done|].
    cbn. by rewrite Hc, Hr.
  - by exists EmptyString.
Qed.

Lemma lstrip_not_starting (chars s : string) :
  starts_in chars (Py.lstrip chars s) = false.
Proof.
  induction s as [|c s IH]; [done|]. cbn [Py.lstrip].
  destruct (Py.contains c chars) eqn:Hc; [done|]. cbn. exact Hc.
Qed.

Lemma lstrip_fixed (chars s : string) :
  starts_in chars s = false → Py.lstrip chars s = s.
Proof. destruct s as [|c s]; [done|]. cbn. by intros ->. Qed.

(** X1: the identifier [run_query] polls with is what is left of the
    submitted identifier once its leading I's and D's are removed: the
    identifier is the removed characters, all of them I or D, followed by
    it; it does not begin with I or D; stripping it again changes nothing. *)
Theorem polled_identifier_is_stripped_suffix (id : string) :
  (∃ removed, id = removed +:+ Py.lstrip "ID" id ∧ all_in "ID" removed = true) ∧
  starts_in "ID" (Py.lstrip "ID" id) = false ∧
  Py.lstrip "ID" (Py.lstrip "ID" id) = Py.lstrip "ID" id.
Proof.
  split; [apply lstrip_split|]. split; [apply lstrip_not_starting|].
  apply lstrip_fixed, lstrip_not_starting.
Qed.

(** ** QueryBuilder *)

(** X2: [build_query_strings] raises on no input: for every configuration
    and every list of identifiers the three [format] calls succeed, and each
    statement is its template with the replacement fields filled by the
    values as they are, braces in a value included. *)
Theorem build_query_strings_never_raises (cfg : Config)
    (function_arns : list string) :
  ∃ create partition activity,
    build_query_strings cfg function_arns = Ok (create, partition, activity) ∧
    create = slice 0 22 CREATE_TABLE_QUERY_TEMPLATE +:+ TABLE_NAME cfg +:+
             slice 25 1187 CREATE_TABLE_QUERY_TEMPLATE +:+
             CLOUDTRAIL_S3_BUCKET_NAME cfg +:+
             slice 1190 1192 CREATE_TABLE_QUERY_TEMPLATE ∧
    partition = slice 0 67 CREATE_PARTITON_QUERY_TEMPLATE +:+
                CLOUDTRAIL_S3_BUCKET_NAME cfg +:+
                slice 70 98 CREATE_PARTITON_QUERY_TEMPLATE ∧
    activity = slice 0 319 LAST_RUN_QUERY_TEMPLATE +:+
               Py.slice_1_m1 (Py.str_list function_arns) +:+
               slice 334 401 LAST_RUN_QUERY_TEMPLATE ∧
    slice 22 25 CREATE_TABLE_QUERY_TEMPLATE = "{0}" ∧
    slice 1187 1190 CREATE_TABLE_QUERY_TEMPLATE = "{1}" ∧
    slice 67 70 CREATE_PARTITON_QUERY_TEMPLATE = "{0}" ∧
    slice 319 334 LAST_RUN_QUERY_TEMPLATE = "{function_arns}".
Proof.
  eexists _, _, _. rewrite build_query_strings_closed_form.
  split; [reflexivity|]. rewrite slice_str_list.
  repeat split; by vm_compute.
Qed.

(** ** [repr] of an identifier *)

Lemma repr_char_length (c : ascii) :
  if plain_char c then String.length (Py.repr_char Py.SQUOTE c) = 1%nat
  else (2 ≤ String.length (Py.repr_char Py.SQUOTE c))%nat.
Proof.
  destruct c as [[] [] [] [] [] [] [] []]; vm_compute; first [reflexivity | lia].
Qed.

Lemma repr_body_length (s : string) :
  (String.length s ≤ String.length (Py.repr_body Py.SQUOTE s))%nat ∧
  (plain s = false →
   (String.length s < String.length (Py.repr_body Py.SQUOTE s))%nat).
Proof.
  induction s as [|c s [IHle IHlt]]; [done|].
  cbn [plain Py.repr_body String.length]. rewrite append_length.
  pose proof (repr_char_length c) as Hc. fold (plain_char c).
  destruct (plain_char c); cbn [andb].
  - rewrite Hc. split; [lia|]. intros H. specialize (IHlt H). lia.
  - split; [lia|]. intros _. lia.
Qed.

(** X3: the [repr] of an identifier is the identifier between single quotes
    exactly when the identifier is made of printable characters with no
    single quote and no backslash among them; every other identifier is
    rendered otherwise in the [compute_activity] statement. *)
Theorem repr_single_quoted_iff_plain (id : string) :
  Py.repr id = spec_single_quoted id ↔ plain id = true.
Proof.
  split; [|apply repr_plain].
  intros H. unfold Py.repr, spec_single_quoted in H.
  change ("'" +:+ id +:+ "'") with (String Py.SQUOTE (id +:+ "'")) in H.
  injection H as Hq Hb. rewrite Hq in Hb.
  change (Py.chr Py.SQUOTE) with "'" in Hb. apply append_inv_tail in Hb.
  destruct (plain id) eqn:Hp; [done|].
  destruct (repr_body_length id) as [_ Hlt]. specialize (Hlt Hp).
  rewrite Hb in Hlt. lia.
Qed.

Lemma repr_char_no_bare_quote (quote c : ascii) (rest : string) :
  quote = Py.SQUOTE ∨ quote = Py.DQUOTE →
  bare_quote quote false (Py.repr_char quote c +:+ rest)
    = bare_quote quote false rest.
Proof.
  intros [->| ->]; destruct c as [[] [] [] [] [] [] [] []]; reflexivity.
Qed.

Lemma repr_body_no_bare_quote (quote : ascii) (s rest : string) :
  quote = Py.SQUOTE ∨ quote = Py.DQUOTE →
  bare_quote quote false (Py.repr_body quote s +:+ rest)
    = bare_quote quote false rest.
Proof.
  intros Hq. induction s as [|c s IH]; [done|].
  cbn [Py.repr_body]. rewrite append_assoc.
  by rewrite repr_char_no_bare_quote.
Qed.

(** X4: in the [repr] of any identifier the text between the opening and
    the closing quote holds no quote character of that kind that is not
    preceded by an escaping backslash; the quote is the single or the double
    quote. *)
Theorem repr_body_has_no_bare_quote (id : string) :
  ∃ quote body,
    (quote = Py.SQUOTE ∨ quote = Py.DQUOTE) ∧
    Py.repr id = Py.chr quote +:+ body +:+ Py.chr quote ∧
    bare_quote quote false body = false ∧
    (quote = Py.DQUOTE ↔
     Py.contains Py.SQUOTE id = true ∧ Py.contains Py.DQUOTE id = false).
Proof.
  exists (Py.repr_quote id), (Py.repr_body (Py.repr_quote id) id).
  assert (Py.repr_quote id = Py.SQUOTE ∨ Py.repr_quote id = Py.DQUOTE) as Hq.
  { unfold Py.repr_quote. destruct (_ && _); auto. }
  split; [exact Hq|]. split; [reflexivity|]. split.
  - rewrite <- (append_nil_r (Py.repr_body _ _)).
    by rewrite repr_body_no_bare_quote.
  - unfold Py.repr_quote.
    destruct (Py.contains Py.SQUOTE id), (Py.contains Py.DQUOTE id); cbn;
      split; try done; try (by intros [? ?]).
Qed.

(** ** ResultRowParser *)

Lemma target_cell_has (r : Row) :
  has_target_cell r = true ↔ ¬ lacks_target_cell r.
Proof.
  unfold has_target_cell, target_cell, lacks_target_cell.
  destruct (Data r) as [|c cells]; cbn; [naive_solver|].
  destruct (VarCharValue c); naive_solver.
Qed.

Lemma target_cell_error_kind (r : Row) (e : Exn) :
  target_cell r = Err e → e = IndexError ∨ e = KeyError "VarCharValue".
Proof.
  unfold target_cell. destruct (Data r !! 0%nat) as [c|]; [|naive_solver].
  destruct (VarCharValue c); naive_solver.
Qed.

Lemma first_cells_cons (r : Row) (rows : list Row) :
  first_cells (r :: rows) =
    match target_cell r with
    | Ok v => v :: first_cells rows
    | Err _ => first_cells rows
    end.
Proof. unfold first_cells. cbn. by destruct (target_cell r). Qed.

Lemma rows_loop_result (rows : list Row) (acc : gset string) :
  if forallb has_target_cell rows
  then rows_loop rows acc = Ok (acc ∪ list_to_set (first_cells rows))
  else ∃ e, rows_loop rows acc = Err e ∧
            (e = IndexError ∨ e = KeyError "VarCharValue").
Proof.
  revert acc. induction rows as [|r rows IH]; intros acc.
  - cbn. f_equal. set_solver.
  - cbn [forallb rows_loop]. rewrite first_cells_cons.
    unfold has_target_cell at 1.
    destruct (target_cell r) as [v|e] eqn:E; cbn [andb].
    + specialize (IH (acc ∪ {[v]})).
      destruct (forallb has_target_cell rows); [|done].
      rewrite IH. f_equal. set_solver.
    + exists e. split; [done|]. by apply target_cell_error_kind with r.
Qed.

(** X5: the parser returns a set exactly when every row after the first has
    its target cell, and the set is then that of the first cells of those
    rows; otherwise it raises, and what it raises is [IndexError] or
    [KeyError] for the key VarCharValue, nothing else. *)
Theorem parser_result_characterised (result_set : list Row) :
  ((∃ used, get_set_of_function_arns_from_result_set result_set = Ok used) ↔
   Forall (λ r, ¬ lacks_target_cell r) (drop 1 result_set)) ∧
  (∀ used, get_set_of_function_arns_from_result_set result_set = Ok used →
           used = list_to_set (first_cells (drop 1 result_set))) ∧
  (∀ e, get_set_of_function_arns_from_result_set result_set = Err e →
        e = IndexError ∨ e = KeyError "VarCharValue").
Proof.
  unfold get_set_of_function_arns_from_result_set.
  pose proof (rows_loop_result (drop 1 result_set) ∅) as H.
  destruct (forallb has_target_cell (drop 1 result_set)) eqn:Hall.
  - rewrite H. split; [|split].
    + split; [|by eauto]. intros _. apply Forall_forall. intros r Hr.
      apply target_cell_has. rewrite forallb_forall in Hall.
      apply Hall. by apply list_elem_of_In.
    + intros used [= <-]. set_solver.
    + done.
  - destruct H as (e & -> & He). split; [|split].
    + split; [by intros [? ?]|]. intros HF.
      assert (forallb has_target_cell (drop 1 result_set) = true) as Ht;
        [|congruence].
      apply forallb_forall. intros r Hr. apply target_cell_has.
      rewrite Forall_forall in HF. apply HF. by apply list_elem_of_In.
    + done.
    + by intros e' [= <-].
Qed.

Lemma parser_error_kinds (result_set : list Row) (e : Exn) :
  get_set_of_function_arns_from_result_set result_set = Err e →
  e = IndexError ∨ e = KeyError "VarCharValue".
Proof.
  unfold get_set_of_function_arns_from_result_set. intros H.
  pose proof (rows_loop_result (drop 1 result_set) ∅) as Hr.
  destruct (forallb has_target_cell (drop 1 result_set)); [congruence|].
  destruct Hr as (e' & He' & Hk). congruence.
Qed.

Lemma first_cells_perm (rows rows' : list Row) :
  rows ≡ₚ rows' → first_cells rows ≡ₚ first_cells rows'.
Proof. intros H. unfold first_cells. by rewrite H. Qed.

Lemma forallb_perm {A} (f : A → bool) (l l' : list A) :
  l ≡ₚ l' → forallb f l = forallb f l'.
Proof.
  induction 1 as [|x l l' _ IH|x y l|l l' l'' _ IH1 _ IH2]; cbn.
  - done.
  - by rewrite IH.
  - by destruct (f x), (f y).
  - congruence.
Qed.

(** X6: the order of the data rows does not matter to what the parser
    yields, nor does what the header row holds: on a rearrangement of the
    data rows the parser returns the same set, or fails as well (possibly
    with the exception of another row). *)
Theorem parser_order_independent (first first' : Row) (rows rows' : list Row) :
  rows ≡ₚ rows' →
  (∀ used,
     get_set_of_function_arns_from_result_set (first :: rows) = Ok used ↔
     get_set_of_function_arns_from_result_set (first' :: rows') = Ok used) ∧
  ((∃ e, get_set_of_function_arns_from_result_set (first :: rows) = Err e) ↔
   (∃ e, get_set_of_function_arns_from_result_set (first' :: rows') = Err e)).
Proof.
  intros Hp. unfold get_set_of_function_arns_from_result_set.
  change (drop 1 (first :: rows)) with rows.
  change (drop 1 (first' :: rows')) with rows'.
  pose proof (rows_loop_result rows ∅) as H.
  pose proof (rows_loop_result rows' ∅) as H'.
  rewrite <- (forallb_perm _ _ _ Hp) in H'.
  destruct (forallb has_target_cell rows).
  - rewrite H, H'.
    assert (list_to_set (first_cells rows)
              =@{gset string} list_to_set (first_cells rows')) as ->.
    { apply set_eq. intros x. rewrite !elem_of_list_to_set.
      by rewrite (first_cells_perm _ _ Hp). }
    split; [intros used; reflexivity|]. split; intros [e ?]; discriminate.
  - destruct H as (e & -> & _), H' as (e' & -> & _).
    split; [intros used; split; discriminate|]. split; intros _; eauto.
Qed.

Lemma parser_order_independent_witness :
  get_set_of_function_arns_from_result_set
    [header; row [cell "fn-c"]; row [cell "fn-a"]; row [cell "fn-c"]]
  = Ok {["fn-a"; "fn-c"]}.
Proof.
  apply (parser_order_independent (row []) header
           [row [cell "fn-a"]; row [cell "fn-c"]; row [cell "fn-c"]]
           [row [cell "fn-c"]; row [cell "fn-a"]; row [cell "fn-c"]]).
  - apply Permutation_swap.
  - by vm_compute.
Defined.

(** ** Reconciliation *)

(** X7: identifiers reported active that are not in the inventory change
    nothing; a larger active set never makes more functions stale; and every
    function of the inventory is stale or active, never both. *)
Theorem stale_set_ignores_foreign_identifiers (function_arns : list string)
    (used foreign : gset string) :
  (∀ x, x ∈ foreign → x ∉ function_arns) →
  difference_set function_arns (used ∪ foreign)
    = difference_set function_arns used ∧
  (∀ more, (difference_set function_arns (used ∪ more))
             ⊆ (difference_set function_arns used)) ∧
  (∀ x, x ∈ function_arns →
        (x ∈ difference_set function_arns used ∧ x ∉ used) ∨
        ((x ∉ difference_set function_arns used) ∧ x ∈ used)).
Proof.
  intros Hf. split; [|split].
  - apply set_eq. intros x. rewrite !elem_of_difference_set.
    rewrite elem_of_union. naive_solver.
  - intros more x. rewrite !elem_of_difference_set, elem_of_union.
    naive_solver.
  - intros x Hx. rewrite elem_of_difference_set.
    destruct (decide (x ∈ used)); naive_solver.
Qed.

Lemma stale_set_ignores_foreign_identifiers_witness :
  difference_set ["fn-a"; "fn-b"] ({["fn-a"]} ∪ {["fn-gone"]})
    = difference_set ["fn-a"; "fn-b"] {["fn-a"]}.
Proof.
  apply (stale_set_ignores_foreign_identifiers ["fn-a"; "fn-b"]
           {["fn-a"]} {["fn-gone"]}).
  intros x Hx. apply elem_of_singleton in Hx as ->.
  rewrite !elem_of_cons, elem_of_nil. intros [H|[H|[]]]; discriminate.
Defined.

(** ** AsyncQueryExecutor: protocol, sleeping, identifiers *)

Lemma rounds_app (l1 l2 : list Call) :
  rounds (l1 ++ l2) = (rounds l1 + rounds l2)%nat.
Proof. unfold rounds. by rewrite filter_app, length_app. Qed.


Lemma rounds_poll (id a : string) :
  rounds [GetQueryExecution id a] = if decide (a = "FAILED") then 0%nat else 1%nat.
Proof.
  unfold rounds. destruct (decide (a = "FAILED")) as [->|H]; [by vm_compute|].
  rewrite filter_cons_True; [done|]. cbn. by apply bool_decide_eq_true.
Qed.




Section ExecutorMore.

Context {S : Type}.
Variable athena_client : AthenaClient S.
Variable cfg : Config.


(** X9: the polling loop comes to its end.  If the status call number [k]
    (from 0) for the submitted execution is answered SUCCEEDED or FAILED,
    [run_query] returns once it may go round the loop more than [k] times. *)
Theorem run_query_returns_on_succeeded_or_failed (k fuel : nat)
    (query : string) (w : World S) :
  let started :=
    start_query_execution athena_client query "default"
      (ATHENA_S3_BUCKET_NAME cfg) (service w) in
  nth_state athena_client (Py.lstrip "ID" started.1) k started.2 = "SUCCEEDED" ∨
  nth_state athena_client (Py.lstrip "ID" started.1) k started.2 = "FAILED" →
  (k < fuel)%nat →
  ∃ r w', run_query athena_client cfg fuel query w = (Returned r, w').
Proof. apply run_query_ends. Qed.

Lemma run_query_while_slept (fuel : nat) (id : string) (st : option string)
    (w : World S) :
  (slept (run_query_while athena_client fuel id st w).2 + 5 * rounds (calls w)
   = slept w + 5 * rounds (calls (run_query_while athena_client fuel id st w).2))%nat.
Proof.
  revert st w. induction fuel as [|fuel IH]; intros st w;
    (destruct (decide (st = Some "SUCCEEDED")) as [->|Hst];
       [by rewrite run_query_while_succeeded|]).
  - by rewrite run_query_while_no_fuel.
  - rewrite run_query_while_step by done.
    destruct (get_query_execution _ _ _) as [a s].
    destruct (decide (a = "FAILED")) as [->|Hf].
    + cbn [snd slept calls]. rewrite rounds_app, rounds_poll.
      rewrite decide_True by done. lia.
    + match goal with
      | |- context [run_query_while athena_client fuel id (Some a) ?w0] =>
          specialize (IH (Some a) w0)
      end.
      cbn [slept calls] in IH. rewrite rounds_app, rounds_poll in IH.
      rewrite decide_False in IH by done. lia.
Qed.

(** X10: [run_query] sleeps five seconds after every status call that is
    not answered FAILED, the one answered SUCCEEDED included: the time slept
    grows by five times the number of those calls. *)
Theorem run_query_sleeps_after_each_round (fuel : nat) (query : string)
    (w : World S) :
  let run := run_query athena_client cfg fuel query w in
  (slept run.2 + 5 * rounds (calls w) = slept w + 5 * rounds (calls run.2))%nat ∧
  (∀ results, run.1 = Returned (Some results) →
              (slept w + 5 ≤ slept run.2)%nat).
Proof.
  cbv zeta. rewrite run_query_unfold.
  destruct (start_query_execution _ _ _ _ _) as [id s].
  match goal with
  | |- context [run_query_while athena_client fuel id None ?w0] =>
      pose proof (run_query_while_slept fuel id None w0) as Hs;
      destruct (run_query_while_shape athena_client fuel id None w0)
        as (states & _ & _ & Hc); [done|];
      destruct (run_query_while athena_client fuel id None w0)
        as [[[]|e|] w2]
  end; cbn [fst snd slept calls last_state] in Hs, Hc |- *;
    rewrite rounds_app in Hs;
    change (rounds [StartQueryExecution query id]) with 0%nat in Hs.
  - destruct (get_query_results _ _ _ _) as [results s'].
    cbn [fst snd slept calls]. rewrite rounds_app.
    change (rounds [GetQueryResults id None]) with 0%nat.
    split; [lia|]. intros _ _.
    rewrite Hc, !rounds_app in Hs. unfold polls in Hs.
    rewrite map_app, rounds_app in Hs. cbn [map] in Hs.
    rewrite rounds_poll, decide_False in Hs by done. lia.
  - split; [lia|]. discriminate.
  - split; [lia|]. discriminate.
  - split; [lia|]. discriminate.
Qed.

(** The shape of the calls with the identifier the service answered the
    submission with. *)
Lemma run_query_shape_id (fuel : nat) (query : string) (w : World S) :
  let id := (start_query_execution athena_client query "default"
               (ATHENA_S3_BUCKET_NAME cfg) (service w)).1 in
  ∃ states,
    calls (run_query athena_client cfg fuel query w).2
      = calls w ++ StartQueryExecution query id :: polls id states ++
          match (run_query athena_client cfg fuel query w).1 with
          | Returned (Some _) => [GetQueryResults id None]
          | _ => []
          end.
Proof.
  cbv zeta. rewrite run_query_unfold.
  destruct (start_query_execution _ _ _ _ _) as [id s]. cbn [fst].
  match goal with
  | |- context [run_query_while athena_client fuel id None ?w0] =>
      destruct (run_query_while_shape athena_client fuel id None w0)
        as (states & _ & _ & Hc); [done|];
      destruct (run_query_while athena_client fuel id None w0) as [o w2]
  end.
  cbn [fst snd calls] in Hc. exists (states ++ last_state o).
  destruct o as [[]|e|]; cbn [fst snd].
  - destruct (get_query_results _ _ _ _) as [results s'].
    cbn [fst snd calls]. rewrite Hc. by rewrite <- !app_assoc.
  - rewrite Hc. cbn [last_state]. by rewrite ?app_nil_r, <- !app_assoc.
  - rewrite Hc. cbn [last_state]. by rewrite ?app_nil_r, <- !app_assoc.
  - rewrite Hc. cbn [last_state]. by rewrite ?app_nil_r, <- !app_assoc.
Qed.

(** X11: every call of one [run_query] is about one execution: the
    submission is made in the database default with the configured output
    location, and the identifier it is answered with is the one the call
    for results carries, while the status calls carry it stripped of its
    leading I's and D's.  When the identifier does not begin with I or D,
    all the calls carry that same identifier. *)
Theorem run_query_calls_carry_submitted_identifier (fuel : nat)
    (query : string) (w : World S) :
  let id := (start_query_execution athena_client query "default"
               (ATHENA_S3_BUCKET_NAME cfg) (service w)).1 in
  ∃ log,
    calls (run_query athena_client cfg fuel query w).2
      = calls w ++ StartQueryExecution query id :: log ∧
    Forall (λ c, if is_fetch c then call_id c = id
                 else call_id c = Py.lstrip "ID" id) log ∧
    (starts_in "ID" id = false → Forall (λ c, call_id c = id) log).
Proof.
  cbv zeta. destruct (run_query_shape_id fuel query w) as (states & Hc).
  cbv zeta in Hc. eexists. split; [exact Hc|].
  set (id := (start_query_execution _ _ _ _ _).1).
  assert (Forall (λ c, if is_fetch c then call_id c = id
                       else call_id c = Py.lstrip "ID" id)
            (polls id states ++
             match (run_query athena_client cfg fuel query w).1 with
             | Returned (Some _) => [GetQueryResults id None]
             | _ => []
             end)) as HF.
  { apply Forall_app. split.
    - unfold polls. apply Forall_map. by apply Forall_forall.
    - destruct (run_query athena_client cfg fuel query w).1 as [[?|]|?|];
        repeat constructor. }
  split; [exact HF|]. intros Hid.
  eapply Forall_impl; [exact HF|]. intros c. cbn beta.
  rewrite (lstrip_fixed "ID" id Hid). by destruct (is_fetch c).
Qed.

Lemma run_query_succeeded_answer (fuel : nat) (query : string)
    (w w' : World S) (results : QueryResults) :
  run_query athena_client cfg fuel query w = (Returned (Some results), w') →
  ∃ id s log,
    calls w' = calls w ++ log ++ [GetQueryResults id None] ∧
    get_query_results athena_client id None s = (results, service w').
Proof.
  rewrite run_query_unfold.
  destruct (start_query_execution _ _ _ _ _) as [id s].
  match goal with
  | |- context [run_query_while athena_client fuel id None ?w0] =>
      destruct (run_query_while_shape athena_client fuel id None w0)
        as (states & _ & _ & Hc); [done|];
      destruct (run_query_while athena_client fuel id None w0)
        as [[[]|e|] w2]
  end; cbn [fst snd calls] in Hc |- *; try discriminate.
  destruct (get_query_results _ _ _ _) as [results' s'] eqn:E.
  intros [= -> <-]. cbn [calls service].
  exists id, (service w2),
    (StartQueryExecution query id :: polls id (states ++ ["SUCCEEDED"])).
  split; [|done]. rewrite Hc. by rewrite <- !app_assoc.
Qed.

End ExecutorMore.

(** ** [main]: result, errors, output *)

Section MainMore.

Context {S : Type}.
Variable athena_client : AthenaClient S.
Variable cfg : Config.
Variable set_order : SetOrder.

Lemma mapM_print_eq (lines : list string) (w : World S) :
  mapM print lines w =
    (Returned (map (λ _, tt) lines),
     Build_World (service w) (calls w) (stdout w ++ lines) (slept w)).
Proof.
  revert w. induction lines as [|l lines IH]; intros w.
  - destruct w. cbn. by rewrite app_nil_r.
  - rewrite mapM_cons. unfold print at 1. rewrite IH. cbn.
    by rewrite <- app_assoc.
Qed.

(** [main] is the listing of the functions, then the loop over the
    statements, then the conclusion. *)
Lemma main_eq (fuel : nat) (lambda_client : LambdaClient) (w : World S) :
  ∃ w0,
    retrieve_function_arns lambda_client w
      = (Returned (map FunctionArn (list_functions lambda_client)), w0) ∧
    calls w0 = calls w ∧ service w0 = service w ∧
    (∃ lines, stdout w0 = stdout w ++ lines ∧ Forall (λ l, l ≠ heading) lines) ∧
    slept w0 = (slept w + 2)%nat ∧
    main athena_client cfg set_order fuel lambda_client w
      = conclude set_order (map FunctionArn (list_functions lambda_client))
          (mapM (run_query athena_client cfg fuel)
             (statements cfg lambda_client)) w0.
Proof.
  eexists. split; [reflexivity|]. split; [done|]. split; [done|].
  split; [|split; [done|]].
  - cbn [stdout]. rewrite <- !app_assoc. eexists. split; [reflexivity|].
    repeat (constructor; [by vm_compute|]). constructor.
  - unfold main, conclude. unfold bind at 1.
    change (retrieve_function_arns lambda_client w)
      with (Returned (map FunctionArn (list_functions lambda_client)),
            Build_World (service w) (calls w)
              (((((stdout w ++ ["You have " +:+ pretty (length (list_functions lambda_client)) +:+ " functions in this region" +:+ NL])
                 ++ ["Now the script will run the following Athena queries:" +:+ NL])
                 ++ ["1) Create the Athena table for CloudTrail"])
                 ++ ["2) Add a partition for 2018 to the new table"])
                 ++ ["3) Query Athena for the Lambda functions that have been invoked in the past 30 days" +:+ NL])
              (slept w + 2)).
    cbv iota. unfold bind at 1. rewrite build_query_strings_closed_form.
    reflexivity.
Qed.

Lemma conclude_eq (function_arns : list string)
    (loop : M S (list (option QueryResults))) (w0 : World S) :
  conclude set_order function_arns loop w0 =
    match loop w0 with
    | (Returned query_results, w1) =>
        match last_result_set query_results with
        | Err e => (Raised e, w1)
        | Ok result_set =>
            match get_set_of_function_arns_from_result_set result_set with
            | Err e => (Raised e, w1)
            | Ok used =>
                (Returned (difference_set function_arns used),
                 Build_World (service w1) (calls w1)
                   (stdout w1
                      ++ heading :: difference_list set_order function_arns used)
                   (slept w1))
            end
        end
    | (Raised e, w1) => (Raised e, w1)
    | (OutOfFuel, w1) => (OutOfFuel, w1)
    end.
Proof.
  unfold conclude. unfold bind at 1.
  destruct (loop w0) as [[query_results|e|] w1]; [|done..].
  unfold bind at 1.
  destruct (last_result_set query_results) as [result_set|e]; [|done].
  cbn [lift]. unfold ret at 1, bind at 1.
  destruct (get_set_of_function_arns_from_result_set result_set)
    as [used|e]; [|done].
  cbn [lift]. unfold ret at 1, bind at 1, print at 1, bind at 1.
  rewrite mapM_print_eq. cbn. unfold heading.
  by rewrite <- app_assoc.
Qed.

(** The outcome and what is left of the service and the calls, without the
    output. *)
Lemma conclude_outcome (function_arns : list string)
    (loop : M S (list (option QueryResults))) (w0 : World S) :
  (conclude set_order function_arns loop w0).1 =
    match (loop w0).1 with
    | Returned query_results => report function_arns query_results
    | Raised e => Raised e
    | OutOfFuel => OutOfFuel
    end ∧
  calls (conclude set_order function_arns loop w0).2 = calls (loop w0).2 ∧
  service (conclude set_order function_arns loop w0).2 = service (loop w0).2.
Proof.
  rewrite conclude_eq. unfold report.
  destruct (loop w0) as [[query_results|e|] w1]; cbn [fst snd]; [|done..].
  destruct (last_result_set query_results) as [result_set|e]; [|done].
  by destruct (get_set_of_function_arns_from_result_set result_set).
Qed.

Lemma report_cases (function_arns : list string)
    (r1 r2 r3 : option QueryResults) :
  match r3 with
  | None => report function_arns [r1; r2; r3] = Raised TypeError
  | Some results =>
      match get_set_of_function_arns_from_result_set (Rows results) with
      | Ok used =>
          report function_arns [r1; r2; r3]
            = Returned (difference_set function_arns used)
      | Err e =>
          report function_arns [r1; r2; r3] = Raised e ∧
          (e = IndexError ∨ e = KeyError "VarCharValue")
      end
  end.
Proof.
  destruct r3 as [results|]; [|done]. unfold report. cbn.
  destruct (get_set_of_function_arns_from_result_set (Rows results))
    as [used|e] eqn:E; [done|]. split; [done|].
  by apply (parser_error_kinds (Rows results)).
Qed.

Lemma last_run_query_calls (query : string) (r : option QueryResults)
    (log : list Call) :
  run_query_calls query (Returned r) log →
  ∃ id, last log = Some (match r with
                         | Some _ => GetQueryResults id None
                         | None => GetQueryExecution (Py.lstrip "ID" id) "FAILED"
                         end).
Proof.
  intros H. inversion H as [id states results _|id states _|]; subst;
    exists id.
  - change (StartQueryExecution query id :: polls id (states ++ ["SUCCEEDED"])
              ++ [GetQueryResults id None])
      with ((StartQueryExecution query id :: polls id (states ++ ["SUCCEEDED"]))
              ++ [GetQueryResults id None]).
    apply last_snoc.
  - unfold polls. rewrite map_app. cbn [map].
    change (StartQueryExecution query id
              :: map (GetQueryExecution (Py.lstrip "ID" id)) states
              ++ [GetQueryExecution (Py.lstrip "ID" id) "FAILED"])
      with ((StartQueryExecution query id
               :: map (GetQueryExecution (Py.lstrip "ID" id)) states)
              ++ [GetQueryExecution (Py.lstrip "ID" id) "FAILED"]).
    apply last_snoc.
Qed.

(** The loop over the statements when it comes back: the three results,
    the calls of the three [run_query], the last call and the answer behind
    the last result. *)
Lemma loop_returned (fuel : nat) (q1 q2 q3 : string) (w w3 : World S)
    (rs : list (option QueryResults)) :
  mapM (run_query athena_client cfg fuel) [q1; q2; q3] w = (Returned rs, w3) →
  ∃ r1 r2 r3 log c,
    rs = [r1; r2; r3] ∧
    calls w3 = calls w ++ log ∧
    submitted log = [q1; q2; q3] ∧
    last log = Some c ∧
    match r3 with
    | Some results =>
        ∃ id s, c = GetQueryResults id None ∧
                get_query_results athena_client id None s
                  = (results, service w3)
    | None => ∃ id, c = GetQueryExecution id "FAILED"
    end.
Proof.
  intros H. apply mapM_three in H
    as (r1 & r2 & r3 & w1 & w2 & E1 & E2 & E3 & ->).
  destruct (run_query_shape athena_client cfg fuel q1 w) as (l1 & Hc1 & Hs1).
  destruct (run_query_shape athena_client cfg fuel q2 w1) as (l2 & Hc2 & Hs2).
  destruct (run_query_shape athena_client cfg fuel q3 w2) as (l3 & Hc3 & Hs3).
  rewrite E1 in Hc1, Hs1. rewrite E2 in Hc2, Hs2. rewrite E3 in Hc3, Hs3.
  cbn [fst snd] in *.
  assert (calls w3 = calls w ++ (l1 ++ l2) ++ l3) as Hc.
  { rewrite Hc3, Hc2, Hc1. by rewrite <- !app_assoc. }
  assert (submitted ((l1 ++ l2) ++ l3) = [q1; q2; q3]) as Hsub.
  { rewrite !submitted_app.
    by rewrite (submitted_run_query _ _ _ Hs1), (submitted_run_query _ _ _ Hs2),
      (submitted_run_query _ _ _ Hs3). }
  destruct r3 as [results|].
  - destruct (run_query_succeeded_answer athena_client cfg fuel q3 w2 w3
                results E3) as (id & s & l3' & Hc3' & Ha).
    rewrite Hc3 in Hc3'. apply app_inv_head in Hc3'. subst l3.
    exists r1, r2, (Some results), ((l1 ++ l2) ++ l3' ++ [GetQueryResults id None]),
      (GetQueryResults id None).
    split; [done|]. split; [done|]. split; [done|].
    split; [by rewrite !app_assoc, last_snoc|]. by exists id, s.
  - destruct (last_run_query_calls _ _ _ Hs3) as (id & Hlast).
    exists r1, r2, None, ((l1 ++ l2) ++ l3),
      (GetQueryExecution (Py.lstrip "ID" id) "FAILED").
    split; [done|]. split; [done|]. split; [done|]. split; [|by eauto].
    destruct l3 as [|c l3 _] using rev_ind; [done|].
    rewrite last_snoc in Hlast. by rewrite app_assoc, last_snoc.
Qed.

Lemma loop_never_raises (fuel : nat) (lambda_client : LambdaClient)
    (w : World S) (e : Exn) :
  (mapM (run_query athena_client cfg fuel) (statements cfg lambda_client) w).1
    ≠ Raised e.
Proof.
  unfold statements.
  match goal with
  | |- context [mapM _ [?q1; ?q2; ?q3] _] =>
      destruct (three_queries_shape athena_client cfg fuel q1 q2 q3 w)
        as (log & _ & _ & Hr)
  end.
  cbv zeta in Hr. intros He. by rewrite He in Hr.
Qed.

(** What [main] comes to, by the outcome of the loop over the statements. *)
Lemma main_cases (fuel : nat) (lambda_client : LambdaClient) (w : World S) :
  let run := main athena_client cfg set_order fuel lambda_client w in
  let function_arns := map FunctionArn (list_functions lambda_client) in
  (run.1 = OutOfFuel) ∨
  ∃ r1 r2 r3 log c,
    run.1 = report function_arns [r1; r2; r3] ∧
    calls run.2 = calls w ++ log ∧
    submitted log = statements cfg lambda_client ∧
    last log = Some c ∧
    match r3 with
    | Some results =>
        ∃ id s, c = GetQueryResults id None ∧
                get_query_results athena_client id None s
                  = (results, service run.2)
    | None => ∃ id, c = GetQueryExecution id "FAILED"
    end.
Proof.
  cbv zeta. destruct (main_eq fuel lambda_client w)
    as (w0 & _ & Hc0 & _ & _ & _ & ->).
  destruct (conclude_outcome
              (map FunctionArn (list_functions lambda_client))
              (mapM (run_query athena_client cfg fuel)
                 (statements cfg lambda_client)) w0) as (Ho & Hcc & Hss).
  rewrite Ho, Hcc, Hss.
  pose proof (loop_never_raises fuel lambda_client w0) as Hnr.
  destruct (mapM _ _ w0) as [[rs|e|] w3] eqn:E; cbn [fst snd] in Hnr |- *;
    [|by destruct (Hnr e)|by left].
  right. apply loop_returned in E
    as (r1 & r2 & r3 & log & c & -> & Hc & Hsub & Hlast & Hans).
  exists r1, r2, r3, log, c. by rewrite <- Hc0, <- Hc.
Qed.

(** X13: when [main] comes to its end with a stale set, all three
    statements were submitted, the last call made was the one for the
    results of [compute_activity], and the set is the inventory listed by
    the Lambda client less the first cells of the data rows of that answer:
    never an identifier outside the inventory. *)
Theorem main_result_from_last_answer (fuel : nat)
    (lambda_client : LambdaClient) (w : World S) (stale : gset string) :
  let run := main athena_client cfg set_order fuel lambda_client w in
  let function_arns := map FunctionArn (list_functions lambda_client) in
  run.1 = Returned stale →
  ∃ log id s results used,
    calls run.2 = calls w ++ log ∧
    submitted log = statements cfg lambda_client ∧
    last log = Some (GetQueryResults id None) ∧
    get_query_results athena_client id None s = (results, service run.2) ∧
    get_set_of_function_arns_from_result_set (Rows results) = Ok used ∧
    stale = difference_set function_arns used ∧
    ∀ x, x ∈ stale → x ∈ function_arns.
Proof.
  cbv zeta. intros Hrun.
  destruct (main_cases fuel lambda_client w)
    as [Ho|(r1 & r2 & r3 & log & c & Hr & Hc & Hsub & Hlast & Hans)];
    cbv zeta in *; [congruence|].
  pose proof (report_cases (map FunctionArn (list_functions lambda_client))
                r1 r2 r3) as Hrep.
  destruct r3 as [results|]; [|congruence].
  destruct (get_set_of_function_arns_from_result_set (Rows results))
    as [used|e] eqn:Eu; [|destruct Hrep; congruence].
  destruct Hans as (id & s & -> & Ha).
  exists log, id, s, results, used. repeat (split; [done|]).
  assert (stale = difference_set
                    (map FunctionArn (list_functions lambda_client)) used)
    as -> by congruence.
  split; [done|]. intros x Hx. by apply elem_of_difference_set in Hx as [? _].
Qed.


Lemma run_query_while_stdout (fuel : nat) (id : string) (st : option string)
    (w : World S) :
  ∃ lines,
    stdout (run_query_while athena_client fuel id st w).2 = stdout w ++ lines ∧
    Forall (λ l, l ≠ heading) lines.
Proof.
  revert st w. induction fuel as [|fuel IH]; intros st w;
    (destruct (decide (st = Some "SUCCEEDED")) as [->|Hst];
       [rewrite run_query_while_succeeded; exists [];
        by rewrite app_nil_r|]).
  - rewrite run_query_while_no_fuel by done. exists []. by rewrite app_nil_r.
  - rewrite run_query_while_step by done.
    destruct (get_query_execution _ _ _) as [a s].
    destruct (decide (a = "FAILED")).
    + eexists. split; [reflexivity|]. by repeat constructor.
    + match goal with
      | |- context [run_query_while athena_client fuel id (Some a) ?w0] =>
          destruct (IH (Some a) w0) as (lines & -> & Hl)
      end.
      exists ("Running" :: lines). cbn [stdout]. rewrite <- app_assoc.
      split; [done|]. by constructor.
Qed.

Lemma run_query_stdout (fuel : nat) (query : string) (w : World S) :
  ∃ lines,
    stdout (run_query athena_client cfg fuel query w).2 = stdout w ++ lines ∧
    Forall (λ l, l ≠ heading) lines.
Proof.
  rewrite run_query_unfold.
  destruct (start_query_execution _ _ _ _ _) as [id s].
  match goal with
  | |- context [run_query_while athena_client fuel id None ?w0] =>
      destruct (run_query_while_stdout fuel id None w0) as (lines & Hs & Hl);
      destruct (run_query_while athena_client fuel id None w0)
        as [[[]|e|] w2]
  end; cbn [snd stdout] in Hs |- *;
    try (destruct (get_query_results _ _ _ _) as [results s']; cbn [snd stdout]);
    rewrite Hs, <- app_assoc; eexists; (split; [reflexivity|]);
    (constructor; [by unfold heading, NL|done]).
Qed.

Lemma loop_stdout (fuel : nat) (queries : list string) (w : World S) :
  ∃ lines,
    stdout (mapM (run_query athena_client cfg fuel) queries w).2
      = stdout w ++ lines ∧
    Forall (λ l, l ≠ heading) lines.
Proof.
  revert w. induction queries as [|q queries IH]; intros w.
  - exists []. by rewrite mapM_nil, app_nil_r.
  - rewrite mapM_cons.
    destruct (run_query_stdout fuel q w) as (l1 & H1 & Hl1).
    destruct (run_query athena_client cfg fuel q w) as [[r|e|] w1];
      cbn [snd] in H1; [|by exists l1..].
    destruct (IH w1) as (l2 & H2 & Hl2).
    destruct (mapM _ queries w1) as [[rs|e|] w2]; cbn [snd] in H2 |- *;
      exists (l1 ++ l2); rewrite H2, H1, <- app_assoc;
      (split; [done|]); by apply Forall_app.
Qed.

(** X15: the heading of the report and the stale identifiers are printed
    only by a run that comes to its end with a stale set, as the last lines
    of its output: after the heading the members of the stale set, each
    once, in the order in which the run lists a set; a run that raises or is
    still polling has printed no heading. *)
Theorem main_prints_report_only_on_success (fuel : nat)
    (lambda_client : LambdaClient) (w : World S) :
  let run := main athena_client cfg set_order fuel lambda_client w in
  ∃ lines,
    Forall (λ l, l ≠ heading) lines ∧
    match run.1 with
    | Returned stale =>
        ∃ listed,
          stdout run.2 = stdout w ++ lines ++ heading :: listed ∧
          listed ≡ₚ elements stale ∧
          NoDup listed ∧
          (∀ x, x ∈ listed ↔ x ∈ stale)
    | _ => stdout run.2 = stdout w ++ lines
    end.
Proof.
  cbv zeta. destruct (main_eq fuel lambda_client w)
    as (w0 & _ & _ & _ & (l0 & Hs0 & Hl0) & _ & ->).
  rewrite conclude_eq.
  destruct (loop_stdout fuel (statements cfg lambda_client) w0)
    as (l1 & Hs1 & Hl1).
  exists (l0 ++ l1). split; [by apply Forall_app|].
  destruct (mapM _ _ w0) as [[rs|e|] w3]; cbn [snd] in Hs1;
    [|cbn; by rewrite Hs1, Hs0, <- app_assoc..].
  destruct (last_result_set rs) as [result_set|e];
    [|cbn; by rewrite Hs1, Hs0, <- app_assoc].
  destruct (get_set_of_function_arns_from_result_set result_set)
    as [used|e]; [|cbn; by rewrite Hs1, Hs0, <- app_assoc].
  cbn [fst snd stdout].
  exists (difference_list set_order
            (map FunctionArn (list_functions lambda_client)) used).
  split; [by rewrite Hs1, Hs0, <- !app_assoc|].
  split; [apply difference_list_perm|].
  split; [rewrite difference_list_perm; apply NoDup_elements|].
  intros x. by rewrite difference_list_perm, elem_of_elements.
Qed.

(** X17: [main] comes to its end whenever the service settles every
    execution: if, from any state and for any identifier, one of the first
    [K] status calls is answered SUCCEEDED or FAILED, then [main] ends, with
    a stale set or an exception, never still polling after [K] rounds. *)
Theorem main_ends_when_service_settles (K fuel : nat)
    (lambda_client : LambdaClient) (w : World S) :
  (∀ id s, ∃ k, (k < K)%nat ∧
      (nth_state athena_client id k s = "SUCCEEDED" ∨
       nth_state athena_client id k s = "FAILED")) →
  (K ≤ fuel)%nat →
  (main athena_client cfg set_order fuel lambda_client w).1 ≠ OutOfFuel.
Proof.
  intros Hsettle Hle.
  assert (∀ q w1, ∃ r w', run_query athena_client cfg fuel q w1
                          = (Returned r, w')) as Hrq.
  { intros q w1.
    destruct (Hsettle
                (Py.lstrip "ID"
                   (start_query_execution athena_client q "default"
                      (ATHENA_S3_BUCKET_NAME cfg) (service w1)).1)
                (start_query_execution athena_client q "default"
                   (ATHENA_S3_BUCKET_NAME cfg) (service w1)).2)
      as (k & Hk & Ht).
    apply run_query_ends with k; [exact Ht|lia]. }
  destruct (main_eq fuel lambda_client w) as (w0 & _ & _ & _ & _ & _ & ->).
  destruct (conclude_outcome
              (map FunctionArn (list_functions lambda_client))
              (mapM (run_query athena_client cfg fuel)
                 (statements cfg lambda_client)) w0) as (-> & _ & _).
  unfold statements.
  generalize (create_table_statement (TABLE_NAME cfg)
                (CLOUDTRAIL_S3_BUCKET_NAME cfg)).
  generalize (add_partition_statement (CLOUDTRAIL_S3_BUCKET_NAME cfg)).
  generalize (compute_activity_statement
                (Py.join ", "
                   (map Py.repr (map FunctionArn (list_functions lambda_client))))).
  intros q3 q2 q1.
  rewrite mapM_cons. destruct (Hrq q1 w0) as (r1 & w1 & ->).
  rewrite mapM_cons. destruct (Hrq q2 w1) as (r2 & w2 & ->).
  rewrite mapM_cons. destruct (Hrq q3 w2) as (r3 & w3 & ->).
  rewrite mapM_nil. cbn [fst].
  pose proof (report_cases (map FunctionArn (list_functions lambda_client))
                r1 r2 r3) as Hrep.
  destruct r3 as [results|]; [|by rewrite Hrep].
  destruct (get_set_of_function_arns_from_result_set (Rows results));
    [by rewrite Hrep|]. destruct Hrep as [-> _]. done.
Qed.

End MainMore.

(** ** The further properties on the scripted service *)

Lemma run_query_returns_on_succeeded_or_failed_witness :
  ∃ r w', run_query create_table_fails script_config 1 "select 1"
            (initial_world mock0) = (Returned r, w').
Proof.
  apply (run_query_returns_on_succeeded_or_failed create_table_fails
           script_config 0 1 "select 1" (initial_world mock0)).
  - right. by vm_compute.
  - lia.
Defined.

Lemma main_result_from_last_answer_witness :
  ∃ log id s results used,
    calls (main all_succeed script_config canonical_order 5 inventory_abc
             (initial_world mock0)).2 = [] ++ log ∧
    submitted log = statements script_config inventory_abc ∧
    last log = Some (GetQueryResults id None) ∧
    get_query_results all_succeed id None s
      = (results,
         service (main all_succeed script_config canonical_order 5
                    inventory_abc (initial_world mock0)).2) ∧
    get_set_of_function_arns_from_result_set (Rows results) = Ok used ∧
    {["fn-b"]} = difference_set ["fn-a"; "fn-b"; "fn-c"] used ∧
    ∀ x, x ∈ ({["fn-b"]} : gset string) → x ∈ ["fn-a"; "fn-b"; "fn-c"].
Proof.
  apply (main_result_from_last_answer all_succeed script_config
           canonical_order 5
           inventory_abc (initial_world mock0) {["fn-b"]}).
  by vm_compute.
Defined.


Lemma main_ends_when_service_settles_witness :
  (main create_table_fails script_config canonical_order 1 inventory_abc
     (initial_world mock0)).1 ≠ OutOfFuel.
Proof.
  apply (main_ends_when_service_settles create_table_fails script_config
           canonical_order 1 1
           inventory_abc (initial_world mock0)).
  - intros id s. exists 0%nat. split; [lia|].
    unfold nth_state, create_table_fails, scripted. cbn.
    destruct (status_calls s) as [|[|[|n]]]; cbn; auto.
  - lia.
Defined.
